(** * CRM backend (index.js): request handlers over a document store

    A shallow embedding of the Express handlers of [index.js] and of the
    Mongoose calls they make.  The three collections the handlers touch are
    lists of documents in insertion order; a handler is a computation over
    that store which either sends a response or lets its error escape. *)

From Stdlib Require Import ZArith NArith Ascii String List Sorting.Sorted
  Sorting.Permutation Lia Bool.
From stdpp Require Import base decidable option list strings gmap fin_maps.

Local Open Scope string_scope.
Local Open Scope list_scope.
Local Open Scope Z_scope.

(** ** JavaScript values the handlers rely on *)

Module Js.

(** Errors a handler can see: the language's own and the libraries'. *)
Inductive Error :=
| ReferenceError (ident : string)   (* "<ident> is not defined" *)
| BSONError                         (* new ObjectId(<malformed>) *)
| CastError (path : string)         (* mongoose: value does not cast *)
| ValidationError                   (* mongoose: schema validation *)
| MongoServerError (code : Z).      (* driver error, e.g. E11000 *)

(** [error.code]: only driver errors carry one. *)
Definition code (e : Error) : option Z :=
  match e with
  | MongoServerError c => Some c
  | _ => None
  end.

(** Truthiness of a possibly absent string property: [undefined] and the
    empty string are falsy, every other string is truthy. *)
Definition truthy (v : option string) : bool :=
  match v with
  | None => false
  | Some EmptyString => false
  | Some (String _ _) => true
  end.

(** [s.split(sep)] for a one-character separator: the empty string splits
    into one empty piece, and [n] separators give [n + 1] pieces. *)
Fixpoint split (sep : ascii) (s : string) : list string :=
  match s with
  | EmptyString => [EmptyString]
  | String c rest =>
      if Ascii.eqb c sep then EmptyString :: split sep rest
      else match split sep rest with
           | [] => [String c EmptyString]
           | piece :: pieces => String c piece :: pieces
           end
  end.

Definition comma : ascii := ","%char.

(** Identifier resolution: a name that no enclosing scope declares throws. *)
Definition resolve (scope : list string) (x : string) : option Error :=
  if bool_decide (x ∈ scope) then None else Some (ReferenceError x).

End Js.

(** A request body or query string as the handlers read it: a JavaScript
    object used as a map from property names to string values. *)
Abbreviation JsObject := (gmap string string).

(** ** ObjectId *)

(** A 12-byte identifier, written as 24 hexadecimal digits. *)
Definition ObjectId := N.

Definition hex_digit (c : ascii) : option N :=
  let n := N_of_ascii c in
  if ((48 <=? n) && (n <=? 57))%N then Some (n - 48)%N
  else if ((97 <=? n) && (n <=? 102))%N then Some (n - 87)%N
  else if ((65 <=? n) && (n <=? 70))%N then Some (n - 55)%N
  else None.

Fixpoint hex_value (acc : N) (s : string) : option N :=
  match s with
  | EmptyString => Some acc
  | String c rest =>
      match hex_digit c with
      | Some d => hex_value (16 * acc + d)%N rest
      | None => None
      end
  end.

(** Casting a string to an ObjectId, as the driver does for a route
    parameter or a filter value: exactly 24 hexadecimal digits, in either
    case; anything else does not cast.  (Older drivers also took any
    12-character string as raw bytes; that legacy case is left out.) *)
Definition castObjectId (s : string) : option ObjectId :=
  if (String.length s =? 24)%nat then hex_value 0%N s else None.

(** An identifier argument of a model call: the raw string of a route
    parameter, or an ObjectId already built by the handler. *)
Inductive IdArg :=
| IdStr (s : string)
| IdObj (o : ObjectId).

Definition cast_id (a : IdArg) : option ObjectId :=
  match a with
  | IdStr s => castObjectId s
  | IdObj o => Some o
  end.

(** ** Documents and collections *)

(** Modelled from the spec: the schemas of [models/lead.models.js],
    [models/salesAgent.models.js] and [models/comment.models.js], which
    [index.js] only requires.  A document carries the fields of the data
    model; [salesAgentId] and [tags] are references, to an agent and to
    tags, held as ObjectIds like [lead] and [author] of a comment;
    [createdAt] is a time in milliseconds. *)
Record LeadDoc := {
  lead_id : ObjectId;
  lead_name : string;
  lead_status : string;
  lead_source : string;
  lead_salesAgentId : option ObjectId;
  lead_tags : list ObjectId;
  lead_createdAt : Z
}.

Record AgentDoc := {
  agent_id : ObjectId;
  agent_name : string;
  agent_email : string
}.

Record CommentDoc := {
  comment_id : ObjectId;
  comment_lead : ObjectId;
  comment_author : option ObjectId;
  comment_text : string;
  comment_createdAt : Z
}.

#[global] Instance ObjectId_eq_dec : EqDecision ObjectId.
Proof. unfold ObjectId. apply _. Defined.
#[global] Instance LeadDoc_eq_dec : EqDecision LeadDoc.
Proof. solve_decision. Defined.
#[global] Instance AgentDoc_eq_dec : EqDecision AgentDoc.
Proof. solve_decision. Defined.
#[global] Instance CommentDoc_eq_dec : EqDecision CommentDoc.
Proof. solve_decision. Defined.

(** The store: one list per collection, oldest insertion first. *)
Record Db := {
  leads : list LeadDoc;
  agents : list AgentDoc;
  comments : list CommentDoc
}.

Definition set_leads (ls : list LeadDoc) (db : Db) : Db :=
  {| leads := ls; agents := agents db; comments := comments db |}.
Definition set_agents (ags : list AgentDoc) (db : Db) : Db :=
  {| leads := leads db; agents := ags; comments := comments db |}.
Definition set_comments (cs : list CommentDoc) (db : Db) : Db :=
  {| leads := leads db; agents := agents db; comments := cs |}.

(** ** Computations over the store that may throw *)

Inductive Completion (A : Type) :=
| Return (a : A)
| Throw (e : Js.Error).
Arguments Return {A} a.
Arguments Throw {A} e.

Definition M (A : Type) : Type := Db -> Completion A * Db.

Definition ret {A} (a : A) : M A := fun db => (Return a, db).
Definition throw {A} (e : Js.Error) : M A := fun db => (Throw e, db).
Definition bind {A B} (m : M A) (k : A -> M B) : M B :=
  fun db =>
    match m db with
    | (Return a, db') => k a db'
    | (Throw e, db') => (Throw e, db')
    end.
Definition read {A} (f : Db -> A) : M A := fun db => (Return (f db), db).
Definition write (f : Db -> Db) : M unit := fun db => (Return tt, f db).

(** [try { body } catch (e) { handler }] *)
Definition try_catch {A} (body : M A) (handler : Js.Error -> M A) : M A :=
  fun db =>
    match body db with
    | (Return a, db') => (Return a, db')
    | (Throw e, db') => handler e db'
    end.

Notation "x <- c1 ;; c2" := (bind c1 (fun x => c2))
  (at level 100, c1 at next level, right associativity).
Notation "c1 ;;; c2" := (bind c1 (fun _ => c2))
  (at level 100, right associativity).

(** Reading a name of the enclosing scopes. *)
Definition ident (scope : list string) (x : string) : M unit :=
  match Js.resolve scope x with
  | None => ret tt
  | Some e => throw e
  end.

(** ** Responses *)

Record AuthorView := {
  author_id : ObjectId;
  author_name : string;
  author_email : string
}.

(** A lead with [salesAgentId] populated, a comment with [author] populated. *)
Record LeadView := {
  lv_doc : LeadDoc;
  lv_salesAgentId : option AgentDoc
}.
Record CommentView := {
  cv_doc : CommentDoc;
  cv_author : option AuthorView
}.

Inductive Body :=
| ErrorBody (error : string)
| MessageBody (message : string)
| LeadsBody (ls : list LeadView)
| AgentBody (a : AgentDoc)
| AgentsBody (ags : list AgentDoc)
| CommentBody (c : CommentDoc)
| CommentsBody (cs : list CommentView)
| CountBody (key : string) (count : nat).

Record Response := { status : Z; body : Body }.

(** [res.status(s).json(b)], and [res.json(b)] with the default status. *)
Definition res_status_json (s : Z) (b : Body) : Response :=
  {| status := s; body := b |}.
Definition res_json (b : Body) : Response := res_status_json 200 b.

(** What a request ends in: a response sent by the handler, or an error
    that left the handler (its promise rejects and it has sent nothing). *)
Inductive Outcome :=
| Sent (r : Response)
| Unhandled (e : Js.Error).

Definition Route : Type := Db -> Outcome * Db.

Definition run (m : M Response) : Route :=
  fun db =>
    match m db with
    | (Return r, db') => (Sent r, db')
    | (Throw e, db') => (Unhandled e, db')
    end.

(** ** Mongoose model calls *)

(** Removes the first element satisfying [p], returning it. *)
Fixpoint remove_first {A} (p : A -> bool) (l : list A) : option A * list A :=
  match l with
  | [] => (None, [])
  | x :: rest =>
      if p x then (Some x, rest)
      else let '(found, rest') := remove_first p rest in (found, x :: rest')
  end.

(** A filter value or identifier that does not cast rejects the query. *)
Definition cast_or_throw (path : string) (a : IdArg) : M ObjectId :=
  match cast_id a with
  | Some o => ret o
  | None => throw (Js.CastError path)
  end.

(** [new mongoose.Types.ObjectId(s)] *)
Definition new_ObjectId (s : string) : M ObjectId :=
  match castObjectId s with
  | Some o => ret o
  | None => throw Js.BSONError
  end.

(** The filter objects [index.js] passes to [Lead.find]: equality on
    [salesAgentId], [status] and [source], and [{ $in: [...] }] on [tags]. *)
Record Query := {
  q_salesAgentId : option IdArg;
  q_status : option string;
  q_source : option string;
  q_tags_in : option (list string)
}.

Definition empty_query : Query :=
  {| q_salesAgentId := None; q_status := None; q_source := None;
     q_tags_in := None |}.

Definition with_salesAgentId (v : IdArg) (q : Query) : Query :=
  {| q_salesAgentId := Some v; q_status := q_status q;
     q_source := q_source q; q_tags_in := q_tags_in q |}.
Definition with_status (v : string) (q : Query) : Query :=
  {| q_salesAgentId := q_salesAgentId q; q_status := Some v;
     q_source := q_source q; q_tags_in := q_tags_in q |}.
Definition with_source (v : string) (q : Query) : Query :=
  {| q_salesAgentId := q_salesAgentId q; q_status := q_status q;
     q_source := Some v; q_tags_in := q_tags_in q |}.
Definition with_tags_in (vs : list string) (q : Query) : Query :=
  {| q_salesAgentId := q_salesAgentId q; q_status := q_status q;
     q_source := q_source q; q_tags_in := Some vs |}.

(** The values of [{ $in: [...] }] on [tags], cast to the references the
    path holds; one value that does not cast fails the cast of the list. *)
Fixpoint cast_all (vs : list string) : option (list ObjectId) :=
  match vs with
  | [] => Some []
  | v :: rest =>
      match castObjectId v, cast_all rest with
      | Some o, Some os => Some (o :: os)
      | _, _ => None
      end
  end.

(** A condition the query does not carry matches every document; [$in] on
    the array field [tags] asks for one element among the listed values.
    [agent] and [tags] are the references of the query once cast. *)
Definition lead_matches (agent : option ObjectId)
  (tags : option (list ObjectId)) (q : Query) (l : LeadDoc) : bool :=
  match agent with
  | None => true
  | Some o => bool_decide (lead_salesAgentId l = Some o)
  end
  && match q_status q with
     | None => true
     | Some s => String.eqb (lead_status l) s
     end
  && match q_source q with
     | None => true
     | Some s => String.eqb (lead_source l) s
     end
  && match tags with
     | None => true
     | Some os => existsb (fun t => bool_decide (t ∈ os)) (lead_tags l)
     end.

(** [Lead.find(query)]: the references of the query are cast first, and a
    value that does not cast rejects the query. *)
Definition Lead_find (q : Query) : M (list LeadDoc) :=
  agent <- match q_salesAgentId q with
           | None => ret None
           | Some a => o <- cast_or_throw "salesAgentId" a ;; ret (Some o)
           end ;;
  tags <- match q_tags_in q with
          | None => ret None
          | Some vs =>
              match cast_all vs with
              | Some os => ret (Some os)
              | None => throw (Js.CastError "tags")
              end
          end ;;
  read (fun db => List.filter (lead_matches agent tags q) (leads db)).

Definition find_agent (o : ObjectId) (db : Db) : option AgentDoc :=
  List.find (fun a => N.eqb (agent_id a) o) (agents db).

(** [.populate("salesAgentId")]: the reference becomes the agent document,
    or null when it is unset or resolves to no agent. *)
Definition populate_lead (db : Db) (l : LeadDoc) : LeadView :=
  {| lv_doc := l;
     lv_salesAgentId := match lead_salesAgentId l with
                        | Some o => find_agent o db
                        | None => None
                        end |}.

Definition populate_salesAgentId (ls : list LeadDoc) : M (list LeadView) :=
  read (fun db => map (populate_lead db) ls).

(** [Lead.findById(id)] *)
Definition Lead_findById (id : IdArg) : M (option LeadDoc) :=
  o <- cast_or_throw "_id" id ;;
  read (fun db => List.find (fun l => N.eqb (lead_id l) o) (leads db)).

(** [Lead.findByIdAndDelete(id)] *)
Definition Lead_findByIdAndDelete (id : IdArg) : M (option LeadDoc) :=
  o <- cast_or_throw "_id" id ;;
  ls <- read leads ;;
  let '(found, rest) := remove_first (fun l => N.eqb (lead_id l) o) ls in
  write (set_leads rest) ;;; ret found.

(** [Lead.countDocuments({ status: { $ne: v } })] *)
Definition Lead_countDocuments_status_ne (v : string) : M nat :=
  read (fun db =>
    length (List.filter (fun l => negb (String.eqb (lead_status l) v))
                        (leads db))).

(** [SalesAgent.find()] *)
Definition SalesAgent_find : M (list AgentDoc) := read agents.

(** [SalesAgent.findByIdAndDelete(id)] *)
Definition SalesAgent_findByIdAndDelete (id : IdArg) : M (option AgentDoc) :=
  o <- cast_or_throw "_id" id ;;
  ags <- read agents ;;
  let '(found, rest) := remove_first (fun a => N.eqb (agent_id a) o) ags in
  write (set_agents rest) ;;; ret found.

(** [.sort({ createdAt: -1 })]: newest first; comments of equal time keep
    their stored order. *)
Fixpoint insert_desc (c : CommentDoc) (l : list CommentDoc) : list CommentDoc :=
  match l with
  | [] => [c]
  | d :: rest =>
      if comment_createdAt d <=? comment_createdAt c then c :: d :: rest
      else d :: insert_desc c rest
  end.

Definition sort_createdAt_desc (l : list CommentDoc) : list CommentDoc :=
  foldr insert_desc [] l.

(** The projection ["name email"] of a populated author: the selected paths
    and the identifier every document carries. *)
Definition select_name_email (a : AgentDoc) : AuthorView :=
  {| author_id := agent_id a; author_name := agent_name a;
     author_email := agent_email a |}.

Definition populate_author (db : Db) (c : CommentDoc) : CommentView :=
  {| cv_doc := c;
     cv_author := match comment_author c with
                  | Some o => option_map select_name_email (find_agent o db)
                  | None => None
                  end |}.

(** [Comment.find({ lead: id }).populate("author", "name email")
      .sort({ createdAt: -1 })] *)
Definition Comment_find_lead_populated_sorted (id : IdArg)
  : M (list CommentView) :=
  o <- cast_or_throw "lead" id ;;
  read (fun db =>
    map (populate_author db)
        (sort_createdAt_desc
           (List.filter (fun c => N.eqb (comment_lead c) o) (comments db)))).

(** ** Saving documents *)

(** A reference path that may be absent: unset, or a value that must cast. *)
Definition cast_reference (v : option string) : option (option ObjectId) :=
  match v with
  | None => Some None
  | Some s => option_map Some (castObjectId s)
  end.

Section Schemas.

(** The schema rules of the model files, which [index.js] only requires:
    what makes an agent's email syntactically valid, and which comment
    objects pass the validation of the paths other than the references. *)
Variable email_syntax_ok : string -> bool.
Variable comment_paths_ok : JsObject -> bool.

(** Modelled from the spec: [new SalesAgent(obj).save()] of the missing
    [models/salesAgent.models.js].  Creation requires a syntactically
    valid email (a validation failure otherwise) that no stored agent has
    (the unique index rejects the insert with driver code 11000). *)
Definition SalesAgent_save (fresh : ObjectId) (obj : JsObject) : M AgentDoc :=
  match obj !! "email" with
  | None => throw Js.ValidationError
  | Some email =>
      if negb (email_syntax_ok email) then throw Js.ValidationError
      else
        ags <- read agents ;;
        if existsb (fun a => String.eqb (agent_email a) email) ags
        then throw (Js.MongoServerError 11000)
        else
          let doc := {| agent_id := fresh;
                        agent_name := default "" (obj !! "name");
                        agent_email := email |} in
          write (fun db => set_agents (agents db ++ [doc]) db) ;;;
          ret doc
  end.

(** Modelled from the spec: [new Comment(obj).save()] of the missing
    [models/comment.models.js].  [lead] is a required reference,
    [author] a reference; a value that does not cast, or an object the
    schema rejects, is a validation failure. *)
Definition Comment_save (fresh : ObjectId) (now : Z) (obj : JsObject)
  : M CommentDoc :=
  match obj !! "lead" with
  | None => throw Js.ValidationError
  | Some l =>
      match castObjectId l, cast_reference (obj !! "author") with
      | Some lead, Some author =>
          if negb (comment_paths_ok obj) then throw Js.ValidationError
          else
            let doc := {| comment_id := fresh; comment_lead := lead;
                          comment_author := author;
                          comment_text := default "" (obj !! "text");
                          comment_createdAt := now |} in
            write (fun db => set_comments (comments db ++ [doc]) db) ;;;
            ret doc
      | _, _ => throw Js.ValidationError
      end
  end.

(** ** index.js *)

(** The names [index.js] declares at module level, the module wrapper's
    own, and the globals it reads. *)
Definition index_js_scope : list string :=
  [ "express"; "cors"; "app"; "dbConnection"; "Lead"; "SalesAgent";
    "Comment"; "Tag"; "corsOptions"; "addLead"; "getAllLeads";
    "getLeadById"; "updateLead"; "deleteLead"; "deleteAgent"; "addAgent";
    "getAllAgents"; "addComment"; "getCommentsByLead"; "deleteComment";
    "PORT";
    "require"; "module"; "exports"; "__filename"; "__dirname";
    "console"; "process"; "Date" ].

(** What a route handler [async (req, res) => ...] can name. *)
Definition handler_scope : list string := "req" :: "res" :: index_js_scope.

Definition getAllLeads (filters : JsObject) : M (list LeadView) :=
  let query := empty_query in
  let query := if Js.truthy (filters !! "salesAgentId")
               then with_salesAgentId
                      (IdStr (default "" (filters !! "salesAgentId"))) query
               else query in
  let query := if Js.truthy (filters !! "status")
               then with_status (default "" (filters !! "status")) query
               else query in
  let query := if Js.truthy (filters !! "source")
               then with_source (default "" (filters !! "source")) query
               else query in
  let query := if Js.truthy (filters !! "tags")
               then with_tags_in
                      (Js.split Js.comma (default "" (filters !! "tags")))
                      query
               else query in
  found <- Lead_find query ;;
  populate_salesAgentId found.

Definition deleteLead (id : string) : M (option LeadDoc) :=
  Lead_findByIdAndDelete (IdStr id).

Definition deleteAgent (id : string) : M (option AgentDoc) :=
  SalesAgent_findByIdAndDelete (IdStr id).

(** [app.get("/leads", ...)] *)
Definition get_leads (query : JsObject) : Route :=
  run (try_catch
         (leads <- getAllLeads query ;;
          ret (res_json (LeadsBody leads)))
         (fun _ =>
            ret (res_status_json 500 (ErrorBody "Failed to fetch leads.")))).

(** [app.delete("/leads/:id", ...)] *)
Definition delete_leads_id (id : string) : Route :=
  run (try_catch
         (deletedLead <- deleteLead id ;;
          match deletedLead with
          | None => ret (res_status_json 404 (ErrorBody "Lead not found."))
          | Some _ => ret (res_json (MessageBody "Lead deleted."))
          end)
         (fun _ =>
            ret (res_status_json 500 (ErrorBody "Failed to delete lead.")))).

(** [app.delete("/agents/:id", ...)], read in a given scope: the handler
    names [mongoose] in its first statement, and [error] in its [catch]
    block, which binds no parameter. *)
Definition delete_agents_id_in (scope : list string) (id : string) : Route :=
  run (try_catch
         (ident scope "mongoose" ;;;
          agentId <- new_ObjectId id ;;
          ident scope "Lead" ;;;
          assignedLeads <- Lead_find (with_salesAgentId (IdObj agentId)
                                                        empty_query) ;;
          if (0 <? length assignedLeads)%nat
          then ret (res_status_json 400
                      (ErrorBody
                         "Agent has assigned leads. Reassign or delete leads first."))
          else
            ident scope "SalesAgent" ;;;
            deletedAgent <- SalesAgent_findByIdAndDelete (IdObj agentId) ;;
            match deletedAgent with
            | None => ret (res_status_json 404 (ErrorBody "Agent not found."))
            | Some _ => ret (res_json (MessageBody "Agent deleted."))
            end)
         (fun _ =>
            ident scope "console" ;;;
            ident scope "error" ;;;
            ret (res_status_json 500 (ErrorBody "Failed to delete agent.")))).

(** The handler as [index.js] has it. *)
Definition delete_agents_id : string -> Route :=
  delete_agents_id_in handler_scope.

Definition addAgent (fresh : ObjectId) (newAgent : JsObject) : M AgentDoc :=
  SalesAgent_save fresh newAgent.

Definition getAllAgents : M (list AgentDoc) := SalesAgent_find.

(** [app.post("/agents", ...)]; [fresh] is the identifier the driver
    generates for the new document. *)
Definition post_agents (fresh : ObjectId) (body : JsObject) : Route :=
  run (try_catch
         (agent <- addAgent fresh body ;;
          ret (res_status_json 201 (AgentBody agent)))
         (fun error =>
            if bool_decide (Js.code error = Some 11000)
            then ret (res_status_json 409
                        (ErrorBody "Agent with this email already exists."))
            else ret (res_status_json 400
                        (ErrorBody "Failed to create agent.")))).

(** [app.get("/agents", ...)] *)
Definition get_agents : Route :=
  run (try_catch
         (agents <- getAllAgents ;;
          ret (res_json (AgentsBody agents)))
         (fun _ =>
            ret (res_status_json 500 (ErrorBody "Failed to fetch agents.")))).

Definition addComment (fresh : ObjectId) (now : Z) (leadId : string)
  (newComment : JsObject) : M (option CommentDoc) :=
  lead <- Lead_findById (IdStr leadId) ;;
  match lead with
  | None => ret None
  | Some _ =>
      comment <- Comment_save fresh now (<["lead" := leadId]> newComment) ;;
      ret (Some comment)
  end.

Definition getCommentsByLead (leadId : string) : M (list CommentView) :=
  Comment_find_lead_populated_sorted (IdStr leadId).

(** [app.post("/leads/:id/comments", ...)]; [fresh] and [now] are the
    identifier and the creation time the new document receives. *)
Definition post_leads_id_comments (fresh : ObjectId) (now : Z) (id : string)
  (body : JsObject) : Route :=
  run (try_catch
         (savedComment <- addComment fresh now id body ;;
          match savedComment with
          | None => ret (res_status_json 404 (ErrorBody "Lead not found."))
          | Some c => ret (res_status_json 201 (CommentBody c))
          end)
         (fun _ =>
            ret (res_status_json 400 (ErrorBody "Failed to add comment.")))).

(** [app.get("/leads/:id/comments", ...)] *)
Definition get_leads_id_comments (id : string) : Route :=
  run (try_catch
         (comments <- getCommentsByLead id ;;
          ret (res_json (CommentsBody comments)))
         (fun _ =>
            ret (res_status_json 500
                   (ErrorBody "Failed to fetch comments.")))).

(** [app.get("/report/pipeline", ...)] *)
Definition get_report_pipeline : Route :=
  run (try_catch
         (count <- Lead_countDocuments_status_ne "Closed" ;;
          ret (res_json (CountBody "totalLeadsInPipeline" count)))
         (fun _ =>
            ret (res_status_json 500
                   (ErrorBody "Failed to fetch pipeline report.")))).

End Schemas.

(** ** The remaining read and delete handlers of index.js *)

(** [Comment.findByIdAndDelete(id)] *)
Definition Comment_findByIdAndDelete (id : IdArg) : M (option CommentDoc) :=
  o <- cast_or_throw "_id" id ;;
  cs <- read comments ;;
  let '(found, rest) := remove_first (fun c => N.eqb (comment_id c) o) cs in
  write (set_comments rest) ;;; ret found.

(** [Lead.countDocuments({ createdAt: { $gte: t } })] *)
Definition Lead_countDocuments_createdAt_gte (t : Z) : M nat :=
  read (fun db =>
    length (List.filter (fun l => t <=? lead_createdAt l) (leads db))).

(** [Lead.findById(id).populate("salesAgentId")] *)
Definition getLeadById (id : string) : M (option LeadView) :=
  found <- Lead_findById (IdStr id) ;;
  match found with
  | None => ret None
  | Some l => read (fun db => Some (populate_lead db l))
  end.

(** What GET /leads/:id sends: the populated lead itself, or a status with
    one of the other bodies. *)
Inductive LeadReply :=
| LeadJson (lead : LeadView)
| OtherJson (r : Response).

(** [app.get("/leads/:id", ...)] *)
Definition get_leads_id (id : string) : M LeadReply :=
  try_catch
    (lead <- getLeadById id ;;
     match lead with
     | None =>
         ret (OtherJson (res_status_json 404 (ErrorBody "Lead not found.")))
     | Some l => ret (LeadJson l)
     end)
    (fun _ =>
       ret (OtherJson (res_status_json 500 (ErrorBody "Failed to fetch lead.")))).

Definition deleteComment (commentId : string) : M (option CommentDoc) :=
  Comment_findByIdAndDelete (IdStr commentId).

(** [app.delete("/comments/:id", ...)] *)
Definition delete_comments_id (id : string) : Route :=
  run (try_catch
         (deleted <- deleteComment id ;;
          match deleted with
          | None => ret (res_status_json 404 (ErrorBody "Comment not found."))
          | Some _ => ret (res_json (MessageBody "Comment deleted."))
          end)
         (fun _ =>
            ret (res_status_json 500
                   (ErrorBody "Failed to delete comment.")))).

Section Clock.

(** The host's time zone and calendar, as the language's Date uses them:
    [LocalTZA t isUTC] is the offset of local time from UTC, in
    milliseconds, at the UTC time [t] ([isUTC = true]) or at the local time
    [t] ([isUTC = false]); [month_start t] is the day number of the first
    day of the month the local time [t] falls in. *)
Variable LocalTZA : Z -> bool -> Z.
Variable month_start : Z -> Z.

Definition msPerDay : Z := 86400000.
Definition Day (t : Z) : Z := t / msPerDay.
Definition TimeWithinDay (t : Z) : Z := t mod msPerDay.
Definition MakeDate (day time : Z) : Z := day * msPerDay + time.
Definition LocalTime (t : Z) : Z := t + LocalTZA t true.
Definition UTC (t : Z) : Z := t - LocalTZA t false.

(** [d.getDate()]: the day of the month of [d], in local time. *)
Definition getDate (tv : Z) : Z :=
  let t := LocalTime tv in Day t - month_start t + 1.

(** [d.setDate(date)]: the same local month and time of day, on day [date]
    counted from the first of the month; the new time value. *)
Definition setDate (tv date : Z) : Z :=
  let t := LocalTime tv in
  UTC (MakeDate (month_start t + date - 1) (TimeWithinDay t)).

(** [app.get("/report/last-week", ...)]; [now] is the time [new Date()]
    reads from the clock. *)
Definition get_report_last_week (now : Z) : Route :=
  run (try_catch
         (let oneWeekAgo := now in
          let oneWeekAgo := setDate oneWeekAgo (getDate oneWeekAgo - 7) in
          count <- Lead_countDocuments_createdAt_gte oneWeekAgo ;;
          ret (res_json (CountBody "leadsCreatedLastWeek" count)))
         (fun _ =>
            ret (res_status_json 500
                   (ErrorBody "Failed to fetch last week report.")))).

End Clock.

(** * Vocabulary of the statements *)

(** ** Agents and reports *)

Definition references (o : ObjectId) (l : LeadDoc) : bool :=
  bool_decide (lead_salesAgentId l = Some o).

(** The claim's two counts, in its own words. *)
Definition all_leads_count (db : Db) : nat := length (leads db).
Definition closed_leads_count (db : Db) : nat :=
  length (filter (fun l => lead_status l = "Closed") (leads db)).

(** ** Requests to GET /leads *)

(** The filter object [getAllLeads] builds, as a function of the request. *)
Definition query_of (filters : JsObject) : Query :=
  let query := empty_query in
  let query := if Js.truthy (filters !! "salesAgentId")
               then with_salesAgentId
                      (IdStr (default "" (filters !! "salesAgentId"))) query
               else query in
  let query := if Js.truthy (filters !! "status")
               then with_status (default "" (filters !! "status")) query
               else query in
  let query := if Js.truthy (filters !! "source")
               then with_source (default "" (filters !! "source")) query
               else query in
  if Js.truthy (filters !! "tags")
  then with_tags_in (Js.split Js.comma (default "" (filters !! "tags"))) query
  else query.

(** The value a key contributes to the filter: the one it is bound to, unless
    that is the empty string. *)
Definition present (filters : JsObject) (k : string) : option string :=
  if Js.truthy (filters !! k) then filters !! k else None.

(** The keys [getAllLeads] reads. *)
Definition filter_keys : list string :=
  ["salesAgentId"; "status"; "source"; "tags"].

(** The 200 answer of GET /leads: the stored leads a predicate keeps, in
    stored order, each with its agent populated. *)
Definition leads_answer (db : Db) (ls : list LeadDoc) : Outcome * Db :=
  (Sent {| status := 200; body := LeadsBody (map (populate_lead db) ls) |}, db).

(** What the request asks of a lead, in the words of the claims: a lead's
    tags intersect a set of listed tags (it holds a tag that one of the
    listed identifiers denotes), and a lead satisfies every entry the
    request carries (an entry bound to the empty string, or under a key
    that is no filter key, asks nothing). *)
Definition tags_intersect (ts : list string) (l : LeadDoc) : Prop :=
  Exists (fun o => Exists (fun t => castObjectId t = Some o) ts) (lead_tags l).

(** Every listed tag is an identifier that casts. *)
Definition all_cast (ts : list string) : Prop :=
  Forall (fun t => is_Some (castObjectId t)) ts.

#[global] Instance tags_intersect_dec ts l : Decision (tags_intersect ts l).
Proof. unfold tags_intersect. apply _. Defined.

Definition entry_holds (k v : string) (l : LeadDoc) : Prop :=
  (k = "salesAgentId" ->
     exists o, castObjectId v = Some o /\ lead_salesAgentId l = Some o)
  /\ (k = "status" -> lead_status l = v)
  /\ (k = "source" -> lead_source l = v)
  /\ (k = "tags" -> tags_intersect (Js.split Js.comma v) l).

Definition selected (query : JsObject) (l : LeadDoc) : Prop :=
  forall k v, query !! k = Some v -> v <> "" -> entry_holds k v l.

(** The filter string [t1,...,tn] of the request, and tags that can be
    listed in one (they hold no comma). *)
Fixpoint comma_separated (ts : list string) : string :=
  match ts with
  | [] => ""
  | t :: rest =>
      match rest with
      | [] => t
      | _ :: _ => String.append t (String Js.comma (comma_separated rest))
      end
  end.

Fixpoint comma_free (t : string) : bool :=
  match t with
  | EmptyString => true
  | String c rest => negb (Ascii.eqb c Js.comma) && comma_free rest
  end.

(** The claim on the tags filter, as it is stated: the request
    GET /leads?tags=t1,...,tn is answered with exactly the stored leads whose
    tags intersect [{t1,...,tn}]. *)
Definition tags_filter_claim (ts : list string) (db : Db) : Prop :=
  get_leads {[ "tags" := comma_separated ts ]} db
  = leads_answer db (filter (tags_intersect ts) (leads db)).

(** Three tags, by the identifiers a request lists them with. *)
Definition tag_a : string := "00000000000000000000000a".
Definition tag_b : string := "00000000000000000000000b".
Definition tag_c : string := "00000000000000000000000c".

Definition lead_tagged (n : N) (tags : list ObjectId) : LeadDoc :=
  {| lead_id := n; lead_name := "lead"; lead_status := "New";
     lead_source := "Website"; lead_salesAgentId := None;
     lead_tags := tags; lead_createdAt := 0 |}.

Definition leads_only (ls : list LeadDoc) : Db :=
  {| leads := ls; agents := []; comments := [] |}.

(** ** Creating agents *)

Definition conflict_response : Response :=
  {| status := 409; body := ErrorBody "Agent with this email already exists." |}.
Definition validation_response : Response :=
  {| status := 400; body := ErrorBody "Failed to create agent." |}.

Definition email_taken (email : string) (db : Db) : bool :=
  existsb (fun a => String.eqb (agent_email a) email) (agents db).




Definition ann : AgentDoc :=
  {| agent_id := 1%N; agent_name := "Ann"; agent_email := "ann@crm.io" |}.
Definition empty_db : Db := {| leads := []; agents := []; comments := [] |}.
Definition ann_db : Db := {| leads := []; agents := [ann]; comments := [] |}.

(** ** Comments *)

Definition lead_not_found : Response :=
  {| status := 404; body := ErrorBody "Lead not found." |}.
Definition comment_failed : Response :=
  {| status := 400; body := ErrorBody "Failed to add comment." |}.

(** The document a request stores when it goes through. *)
Definition new_comment (fresh : ObjectId) (now : Z) (lead : ObjectId)
  (author : option ObjectId) (body : JsObject) : CommentDoc :=
  {| comment_id := fresh; comment_lead := lead; comment_author := author;
     comment_text := default "" (body !! "text"); comment_createdAt := now |}.

(** An identifier resolves to no stored lead. *)
Definition unresolved (id : string) (db : Db) : Prop :=
  forall l, l ∈ leads db -> castObjectId id <> Some (lead_id l).

(** The claim on commenting a missing lead, as it is stated: any identifier
    that resolves to no lead gets the 404 and leaves the store as it was. *)
Definition comment_on_missing_lead_claim (comment_paths_ok : JsObject -> bool)
  (fresh : ObjectId) (now : Z) (id : string) (body : JsObject) (db : Db)
  : Prop :=
  unresolved id db ->
  post_leads_id_comments comment_paths_ok fresh now id body db
  = (Sent lead_not_found, db).

Definition any_comment (_ : JsObject) : bool := true.

Definition newer_or_same (c d : CommentDoc) : Prop :=
  comment_createdAt d <= comment_createdAt c.

(** Newest first: every comment is at least as recent as all that follow. *)
Definition newest_first (vs : list CommentView) : Prop :=
  StronglySorted (fun v w => newer_or_same (cv_doc v) (cv_doc w)) vs.

(** The author of a view is right for a store: the name and email (and
    identifier) of a stored agent that the comment's [author] refers to, or
    null when it refers to no stored agent. *)
Definition author_expanded (db : Db) (v : CommentView) : Prop :=
  match cv_author v with
  | Some au =>
      exists a, a ∈ agents db
                /\ comment_author (cv_doc v) = Some (agent_id a)
                /\ au = {| author_id := agent_id a;
                           author_name := agent_name a;
                           author_email := agent_email a |}
  | None =>
      forall a, a ∈ agents db -> comment_author (cv_doc v) <> Some (agent_id a)
  end.

(** A sample thread: two comments on lead [a1], the older one by Ann, stored
    oldest first. *)
Definition lead_a1 : LeadDoc := lead_tagged 161 [10%N].
Definition older : CommentDoc :=
  {| comment_id := 10%N; comment_lead := 161%N; comment_author := Some 1%N;
     comment_text := "first call"; comment_createdAt := 1000 |}.
Definition newer : CommentDoc :=
  {| comment_id := 11%N; comment_lead := 161%N; comment_author := None;
     comment_text := "follow-up"; comment_createdAt := 2000 |}.
Definition thread_db : Db :=
  {| leads := [lead_a1]; agents := [ann]; comments := [older; newer] |}.

(** ** Deleting leads and agents *)

Definition lead_deleted : Response :=
  {| status := 200; body := MessageBody "Lead deleted." |}.

Definition assigned_lead : LeadDoc :=
  {| lead_id := 161%N; lead_name := "Acme"; lead_status := "New";
     lead_source := "Website"; lead_salesAgentId := Some 1%N;
     lead_tags := [10%N]; lead_createdAt := 0 |}.
Definition assigned_db : Db :=
  {| leads := [assigned_lead]; agents := [ann]; comments := [] |}.
Definition ann_id : string := "000000000000000000000001".

(** ** Fetching one lead, deleting comments, the weekly report *)

Definition lead_fetch_failed : Response :=
  {| status := 500; body := ErrorBody "Failed to fetch lead." |}.
Definition comment_deleted : Response :=
  {| status := 200; body := MessageBody "Comment deleted." |}.
Definition comment_not_found : Response :=
  {| status := 404; body := ErrorBody "Comment not found." |}.
Definition comment_delete_failed : Response :=
  {| status := 500; body := ErrorBody "Failed to delete comment." |}.

(** The expansion of a lead's agent is right for a store: the stored agent
    the lead refers to, or null when it refers to none. *)
Definition agent_expanded (db : Db) (v : LeadView) : Prop :=
  match lv_salesAgentId v with
  | Some a => a ∈ agents db /\ lead_salesAgentId (lv_doc v) = Some (agent_id a)
  | None =>
      forall a, a ∈ agents db -> lead_salesAgentId (lv_doc v) <> Some (agent_id a)
  end.

(** A request did not succeed: it was answered with an error status, or its
    handler let an error escape. *)
Definition failed (o : Outcome) : Prop :=
  match o with
  | Sent r => 400 <= status r
  | Unhandled _ => True
  end.

(** The leads a GET /leads answer lists, when it is a 200. *)
Definition listed (o : Outcome) : option (list LeadView) :=
  match o with
  | Sent {| status := 200; body := LeadsBody vs |} => Some vs
  | _ => None
  end.

(** The comments a GET /leads/:id/comments answer lists, when it is a 200. *)
Definition listed_comments (o : Outcome) : option (list CommentView) :=
  match o with
  | Sent {| status := 200; body := CommentsBody vs |} => Some vs
  | _ => None
  end.

(** A host on UTC, whatever its calendar. *)
Definition utc_offset (_ : Z) (_ : bool) : Z := 0.
Definition some_calendar (t : Z) : Z := t / 86400000 - 3.

(** The answer of GET /leads to a query the store rejects. *)
Definition fetch_leads_failed : Outcome :=
  Sent {| status := 500; body := ErrorBody "Failed to fetch leads." |}.

(** The tags filter of a request, cast: none, or the references its pieces
    denote; no cast when one piece does not cast. *)
Definition cast_tags (v : option string) : option (option (list ObjectId)) :=
  match v with
  | None => Some None
  | Some s => option_map Some (cast_all (Js.split Js.comma s))
  end.

(** The references a request filters on, once they are cast. *)
Definition casts_as (query : JsObject) (agent : option ObjectId)
  (tags : option (list ObjectId)) : Prop :=
  cast_reference (present query "salesAgentId") = Some agent
  /\ cast_tags (present query "tags") = Some tags.

(** The instant GET /report/last-week counts from: seven days of
    milliseconds before [now], moved by the difference between the host's
    UTC offset now and the one it has at that local time a week earlier. *)
Definition week_cutoff (LocalTZA : Z -> bool -> Z) (now : Z) : Z :=
  now - 604800000
  + (LocalTZA now true - LocalTZA (now + LocalTZA now true - 604800000) false).

(** * Properties of the handlers *)

(** Unfolds the plumbing of a handler down to the model calls. *)
Ltac step_handler :=
  cbv beta iota delta
    [run try_catch bind ret throw read write ident cast_or_throw cast_id
     new_ObjectId Lead_find Lead_findById Lead_findByIdAndDelete
     SalesAgent_find SalesAgent_findByIdAndDelete
     Lead_countDocuments_status_ne Comment_find_lead_populated_sorted
     populate_salesAgentId].

(** ** DELETE /agents/:id *)

Lemma mongoose_not_in_scope : Js.resolve handler_scope "mongoose"
  = Some (Js.ReferenceError "mongoose").
Proof. reflexivity. Qed.

Lemma error_not_in_scope : Js.resolve handler_scope "error"
  = Some (Js.ReferenceError "error").
Proof. reflexivity. Qed.

(** C1 (the code departs from the claim): the handler of
    DELETE /agents/:id names [mongoose], which [index.js] never declares, so
    its first statement throws; the [catch] block then names [error], which
    it does not bind, and throws in turn.  For every store and every
    identifier the request ends in that second error escaping the handler:
    no 400 conflict and no 200 is sent, and the store, hence the agent, is
    left as it was. *)
Theorem delete_agents_id_escapes (id : string) (db : Db) :
  delete_agents_id id db = (Unhandled (Js.ReferenceError "error"), db).
Proof.
  unfold delete_agents_id, delete_agents_id_in. step_handler.
  rewrite mongoose_not_in_scope, error_not_in_scope. reflexivity.
Qed.

(** *** What the handler does once its two names are bound *)

Lemma filter_length_pos {A} (p : A -> bool) (xs : list A) :
  (0 <? length (List.filter p xs))%nat = existsb p xs.
Proof.
  induction xs as [|x xs IH]; simpl; [reflexivity|].
  destruct (p x); simpl; [reflexivity | exact IH].
Qed.

Lemma remove_first_spec {A} (p : A -> bool) (l : list A) :
  match remove_first p l with
  | (None, rest) => rest = l /\ forallb (fun x => negb (p x)) l = true
  | (Some x, rest) =>
      exists l1 l2, l = l1 ++ x :: l2 /\ rest = l1 ++ l2 /\ p x = true
                    /\ forallb (fun y => negb (p y)) l1 = true
  end.
Proof.
  induction l as [|a l IH]; simpl; [auto|].
  destruct (p a) eqn:Hp.
  - exists [], l. auto.
  - destruct (remove_first p l) as [[x|] rest]; simpl.
    + destruct IH as (l1 & l2 & -> & -> & Hx & Hl1).
      exists (a :: l1), l2. simpl. rewrite Hp. auto.
    + destruct IH as [-> Hall]. auto.
Qed.

(** With identifiers unique in the collection, removing the first document
    of a given identifier leaves none behind. *)
Lemma remove_first_gone {A} (key : A -> ObjectId) (o : ObjectId) (l : list A) :
  NoDup (map key l) ->
  forall y, y ∈ (remove_first (fun x => N.eqb (key x) o) l).2 ->
            fst (remove_first (fun x => N.eqb (key x) o) l) <> None ->
            key y <> o.
Proof.
  intros Hnd y Hy Hfound.
  pose proof (remove_first_spec (fun x => N.eqb (key x) o) l) as Hspec.
  destruct (remove_first _ l) as [[x|] rest]; simpl in *; [|congruence].
  destruct Hspec as (l1 & l2 & -> & -> & Hx & _).
  apply N.eqb_eq in Hx.
  rewrite map_app in Hnd. simpl in Hnd.
  apply NoDup_app in Hnd as (_ & Hdisj & Hnd2).
  apply NoDup_cons in Hnd2 as [Hx2 _].
  intros Hy'. apply elem_of_app in Hy as [Hy|Hy].
  - apply (Hdisj (key y)).
    + apply list_elem_of_fmap. eauto.
    + rewrite Hy', <- Hx. apply elem_of_cons. auto.
  - apply Hx2. rewrite Hx, <- Hy'. apply list_elem_of_fmap. eauto.
Qed.

Lemma lead_matches_agent_only (o : ObjectId) (a : IdArg) (ls : list LeadDoc) :
  List.filter (lead_matches (Some o) None (with_salesAgentId a empty_query)) ls
  = List.filter (references o) ls.
Proof.
  induction ls as [|l ls IH]; simpl; [reflexivity|].
  unfold lead_matches at 1. simpl. rewrite !andb_true_r.
  fold (references o l). destruct (references o l); simpl; congruence.
Qed.

(** In a scope that binds [mongoose], [Lead] and [SalesAgent] the guard works
    as written: a referenced agent is refused with the 400 conflict and the
    store is untouched; an unreferenced one is removed (200) or unknown
    (404). *)
Lemma delete_agents_id_in_bound (scope : list string) (id : string)
  (o : ObjectId) (db : Db) :
  Js.resolve scope "mongoose" = None ->
  Js.resolve scope "Lead" = None ->
  Js.resolve scope "SalesAgent" = None ->
  castObjectId id = Some o ->
  delete_agents_id_in scope id db =
    if existsb (references o) (leads db)
    then (Sent (res_status_json 400
                  (ErrorBody
                     "Agent has assigned leads. Reassign or delete leads first.")),
          db)
    else match remove_first (fun a => N.eqb (agent_id a) o) (agents db) with
         | (Some _, rest) =>
             (Sent (res_json (MessageBody "Agent deleted.")), set_agents rest db)
         | (None, rest) =>
             (Sent (res_status_json 404 (ErrorBody "Agent not found.")),
              set_agents rest db)
         end.
Proof.
  intros Hm Hl Hs Hid.
  unfold delete_agents_id_in. step_handler.
  rewrite Hm, Hid, Hl. step_handler.
  change (q_salesAgentId (with_salesAgentId (IdObj o) empty_query))
    with (Some (IdObj o)).
  change (q_tags_in (with_salesAgentId (IdObj o) empty_query))
    with (@None (list string)).
  step_handler.
  rewrite lead_matches_agent_only, filter_length_pos.
  destruct (existsb (references o) (leads db)); [reflexivity|].
  rewrite Hs. step_handler.
  destruct (remove_first _ (agents db)) as [[a|] rest]; reflexivity.
Qed.

(** ** GET /report/pipeline *)

Lemma count_ne_plus_eq (v : string) (ls : list LeadDoc) :
  (length (List.filter (fun l => negb (String.eqb (lead_status l) v)) ls)
   + length (filter (fun l => lead_status l = v) ls)
   = length ls)%nat.
Proof.
  induction ls as [|l ls IH]; [reflexivity|].
  rewrite filter_cons. simpl.
  destruct (String.eqb_spec (lead_status l) v) as [Heq|Hne]; simpl.
  - rewrite decide_True by exact Heq. simpl. lia.
  - rewrite decide_False by exact Hne. lia.
Qed.

(** C3: for every store, GET /report/pipeline answers 200 with a count that
    is the number of all leads minus the number of leads whose status is
    "Closed" (so the two counts add up to the total), and changes nothing. *)
Theorem pipeline_count_is_total_minus_closed (db : Db) :
  exists n : nat,
    get_report_pipeline db
    = (Sent {| status := 200; body := CountBody "totalLeadsInPipeline" n |}, db)
    /\ n = (all_leads_count db - closed_leads_count db)%nat
    /\ (n + closed_leads_count db = all_leads_count db)%nat.
Proof.
  eexists. split; [reflexivity|].
  unfold all_leads_count, closed_leads_count.
  pose proof (count_ne_plus_eq "Closed" (leads db)) as H.
  split; lia.
Qed.

(** ** GET /leads *)

Lemma getAllLeads_query (filters : JsObject) :
  getAllLeads filters
  = (found <- Lead_find (query_of filters) ;; populate_salesAgentId found).
Proof. reflexivity. Qed.

Lemma present_Some (filters : JsObject) (k v : string) :
  present filters k = Some v <-> filters !! k = Some v /\ v <> "".
Proof.
  unfold present. destruct (filters !! k) as [[|c s]|]; simpl;
    split; try intros [? ?]; try congruence; intros; split; congruence.
Qed.

Lemma query_of_fields (filters : JsObject) :
  query_of filters
  = {| q_salesAgentId := IdStr <$> present filters "salesAgentId";
       q_status := present filters "status";
       q_source := present filters "source";
       q_tags_in := Js.split Js.comma <$> present filters "tags" |}.
Proof.
  unfold query_of, present.
  destruct (filters !! "salesAgentId") as [[|c1 s1]|];
    destruct (filters !! "status") as [[|c2 s2]|];
    destruct (filters !! "source") as [[|c3 s3]|];
    destruct (filters !! "tags") as [[|c4 s4]|]; reflexivity.
Qed.

Lemma query_of_ext (f g : JsObject) :
  (forall k, k ∈ filter_keys -> present f k = present g k) ->
  query_of f = query_of g.
Proof.
  intros H. rewrite !query_of_fields.
  rewrite (H "salesAgentId"), (H "status"), (H "source"), (H "tags");
    [reflexivity | unfold filter_keys; set_solver ..].
Qed.

Lemma get_leads_ext (f g : JsObject) (db : Db) :
  query_of f = query_of g -> get_leads f db = get_leads g db.
Proof.
  intros H. unfold get_leads. rewrite !getAllLeads_query, H. reflexivity.
Qed.

(** C9: in GET /leads a filter key bound to the empty string counts as
    absent, and a query parameter other than [salesAgentId], [status],
    [source] and [tags] is ignored, whatever else the request carries: the
    response is the one of the request without that parameter. *)
Theorem get_leads_empty_or_unknown_key_ignored (query : JsObject) (k v : string)
  (db : Db) :
  v = "" \/ k ∉ filter_keys ->
  get_leads (<[k := v]> query) db = get_leads (delete k query) db.
Proof.
  intros Hkv. apply get_leads_ext, query_of_ext. intros k' Hk'.
  unfold present. destruct (decide (k = k')) as [<-|Hne].
  - rewrite lookup_insert_eq, lookup_delete_eq.
    destruct Hkv as [->|Hk]; [reflexivity | contradiction].
  - rewrite lookup_insert_ne, lookup_delete_ne by exact Hne. reflexivity.
Qed.

Lemma cast_all_Some (vs : list string) (os : list ObjectId) :
  cast_all vs = Some os ->
  forall o, o ∈ os <-> exists t, t ∈ vs /\ castObjectId t = Some o.
Proof.
  revert os. induction vs as [|v vs IH]; simpl; intros os.
  - intros [= <-] o. split.
    + intros Ho. apply not_elem_of_nil in Ho. contradiction.
    + intros (t & Ht & _). apply not_elem_of_nil in Ht. contradiction.
  - destruct (castObjectId v) as [o'|] eqn:Hv; [|discriminate].
    destruct (cast_all vs) as [os'|]; [|discriminate].
    intros [= <-] o. rewrite elem_of_cons, (IH os' eq_refl o). split.
    + intros [->|(t & Ht & Ho)].
      * exists v. split; [apply elem_of_cons; auto | exact Hv].
      * exists t. split; [apply elem_of_cons; auto | exact Ho].
    + intros (t & [->|Ht]%elem_of_cons & Ho).
      * left. congruence.
      * right. eauto.
Qed.

Lemma cast_all_None (vs : list string) :
  cast_all vs = None <-> exists t, t ∈ vs /\ castObjectId t = None.
Proof.
  induction vs as [|v vs IH]; simpl.
  - split; [discriminate|]. intros (t & Ht & _).
    apply not_elem_of_nil in Ht. contradiction.
  - destruct (castObjectId v) as [o|] eqn:Hv.
    + destruct (cast_all vs) as [os|].
      * split; [discriminate|].
        intros (t & [->|Ht]%elem_of_cons & Hnone); [congruence|].
        assert (Some os = None) by (apply IH; eauto). discriminate.
      * split; [|reflexivity]. intros _.
        destruct (proj1 IH eq_refl) as (t & Ht & Hnone).
        exists t. split; [apply elem_of_cons; auto | exact Hnone].
    + split; [|reflexivity]. intros _.
      exists v. split; [apply elem_of_cons; auto | exact Hv].
Qed.

Lemma cast_all_all_cast (vs : list string) :
  is_Some (cast_all vs) <-> all_cast vs.
Proof.
  unfold all_cast. rewrite Forall_forall. split.
  - intros [os Hos] t Ht. destruct (castObjectId t) as [o|] eqn:Hc; [eauto|].
    assert (cast_all vs = None) by (apply cast_all_None; eauto). congruence.
  - intros Hall. destruct (cast_all vs) as [os|] eqn:Hc; [eauto|].
    apply cast_all_None in Hc as (t & Ht & Hnone).
    destruct (Hall t Ht) as [o Ho]. congruence.
Qed.

Lemma get_leads_run (query : JsObject) (db : Db) :
  get_leads query db =
    match cast_reference (present query "salesAgentId"),
          cast_tags (present query "tags") with
    | Some agent, Some tags =>
        leads_answer db
          (List.filter (lead_matches agent tags (query_of query)) (leads db))
    | _, _ => (fetch_leads_failed, db)
    end.
Proof.
  unfold get_leads. rewrite getAllLeads_query. step_handler.
  rewrite query_of_fields.
  cbv beta iota delta [q_salesAgentId q_tags_in].
  destruct (present query "salesAgentId") as [v|]; simpl.
  - destruct (castObjectId v); simpl; [|reflexivity].
    destruct (present query "tags") as [s|]; simpl; [|reflexivity].
    destruct (cast_all (Js.split Js.comma s)); reflexivity.
  - destruct (present query "tags") as [s|]; simpl; [|reflexivity].
    destruct (cast_all (Js.split Js.comma s)); reflexivity.
Qed.

Lemma tags_intersect_exists (ts : list string) (l : LeadDoc) :
  tags_intersect ts l
  <-> exists o t, o ∈ lead_tags l /\ t ∈ ts /\ castObjectId t = Some o.
Proof.
  unfold tags_intersect. rewrite Exists_exists. split.
  - intros (o & Ho & (t & Ht & Hc)%Exists_exists). eauto.
  - intros (o & t & Ho & Ht & Hc). exists o. split; [exact Ho|].
    apply Exists_exists. eauto.
Qed.

Lemma existsb_tags_intersect (ts : list string) (os : list ObjectId)
  (l : LeadDoc) :
  cast_all ts = Some os ->
  existsb (fun o => bool_decide (o ∈ os)) (lead_tags l) = true
  <-> tags_intersect ts l.
Proof.
  intros Hos. rewrite tags_intersect_exists, existsb_exists. split.
  - intros (o & Ho & Hin). apply bool_decide_eq_true in Hin.
    apply (cast_all_Some ts os Hos) in Hin as (t & Ht & Hc).
    exists o, t. split; [apply list_elem_of_In, Ho | auto].
  - intros (o & t & Ho & Ht & Hc). exists o. split.
    + apply list_elem_of_In, Ho.
    + apply bool_decide_eq_true, (cast_all_Some ts os Hos). eauto.
Qed.

(** The filter the code applies keeps exactly the leads that satisfy the
    request, provided the references it carries (if any) cast. *)
Lemma lead_matches_selected (query : JsObject) (agent : option ObjectId)
  (tags : option (list ObjectId)) (l : LeadDoc) :
  casts_as query agent tags ->
  lead_matches agent tags (query_of query) l = true <-> selected query l.
Proof.
  intros [Hagent Htags]. rewrite query_of_fields. unfold lead_matches. simpl.
  rewrite !andb_true_iff. split.
  - intros [[[Ha Hst] Hso] Htg] k v Hk Hv.
    assert (Hp : present query k = Some v) by (apply present_Some; auto).
    repeat split; intros ->; rewrite Hp in *; simpl in *.
    + destruct (castObjectId v) as [o|]; [|discriminate].
      injection Hagent as <-. exists o. split; [reflexivity|].
      apply bool_decide_eq_true in Ha. exact Ha.
    + apply String.eqb_eq, Hst.
    + apply String.eqb_eq, Hso.
    + destruct (cast_all (Js.split Js.comma v)) as [os|] eqn:Hos;
        [|discriminate].
      injection Htags as <-. apply (existsb_tags_intersect _ os l Hos), Htg.
  - intros Hsel.
    assert (Hget : forall k v, present query k = Some v -> entry_holds k v l).
    { intros k v Hp. apply present_Some in Hp as [Hk Hv]. eapply Hsel; eauto. }
    repeat split.
    + destruct (present query "salesAgentId") as [v|] eqn:Hp; simpl in Hagent.
      * destruct (Hget _ _ Hp) as [Hh _].
        destruct (Hh eq_refl) as (o' & Ho' & Hl).
        rewrite Ho' in Hagent. injection Hagent as <-.
        apply bool_decide_eq_true. exact Hl.
      * injection Hagent as <-. reflexivity.
    + destruct (present query "status") as [v|] eqn:Hp; [|reflexivity].
      apply String.eqb_eq. apply (Hget _ _ Hp). reflexivity.
    + destruct (present query "source") as [v|] eqn:Hp; [|reflexivity].
      apply String.eqb_eq. apply (Hget _ _ Hp). reflexivity.
    + destruct (present query "tags") as [v|] eqn:Hp; simpl in Htags.
      * destruct (cast_all (Js.split Js.comma v)) as [os|] eqn:Hos;
          [|discriminate].
        injection Htags as <-.
        apply (existsb_tags_intersect _ os l Hos), (Hget _ _ Hp). reflexivity.
      * injection Htags as <-. reflexivity.
Qed.

Lemma List_filter_decide {A} (P : A -> Prop) `{forall x, Decision (P x)}
  (p : A -> bool) (l : list A) :
  (forall x, p x = true <-> P x) -> List.filter p l = filter P l.
Proof.
  intros Hp. induction l as [|a l IH]; [reflexivity|].
  rewrite filter_cons. simpl. destruct (decide (P a)) as [Ha|Ha].
  - apply Hp in Ha. rewrite Ha, IH. reflexivity.
  - destruct (p a) eqn:Hpa; [apply Hp in Hpa; contradiction | exact IH].
Qed.

Lemma get_leads_status (s : string) (db : Db) :
  s <> "" ->
  get_leads {[ "status" := s ]} db
  = leads_answer db (filter (fun l => lead_status l = s) (leads db)).
Proof.
  intros Hs. rewrite get_leads_run.
  assert (Hq : query_of {[ "status" := s ]} = with_status s empty_query).
  { rewrite query_of_fields. unfold present.
    rewrite lookup_singleton_eq, !lookup_singleton_ne by discriminate.
    destruct s; [congruence | reflexivity]. }
  unfold present at 1 2. rewrite !lookup_singleton_ne by discriminate. simpl.
  rewrite Hq. f_equal. apply List_filter_decide. intros l.
  unfold lead_matches. simpl. rewrite !andb_true_r. apply String.eqb_eq.
Qed.

Lemma get_leads_no_filter (db : Db) :
  get_leads ∅ db = leads_answer db (leads db).
Proof.
  rewrite get_leads_run.
  assert (Hq : query_of ∅ = empty_query) by reflexivity.
  unfold present. rewrite !lookup_empty. simpl. rewrite Hq.
  f_equal. induction (leads db) as [|l ls IH]; simpl; congruence.
Qed.

(** C7: for every store, GET /leads?status=Closed answers exactly the leads
    whose status is "Closed", and GET /leads with no filter answers every
    lead.  In general the answer to a request is the stored leads that
    satisfy each entry the request carries, so a key it does not carry
    constrains nothing; the one other outcome is the 500 of a request that
    carries a reference which does not cast: its agent identifier, or one
    of its listed tags. *)
Theorem get_leads_status_closed_open_filter (query : JsObject) (db : Db) :
  get_leads {[ "status" := "Closed" ]} db
  = leads_answer db (filter (fun l => lead_status l = "Closed") (leads db))
  /\ get_leads ∅ db = leads_answer db (leads db)
  /\ ((exists keep : LeadDoc -> bool,
         (forall l, keep l = true <-> selected query l)
         /\ get_leads query db = leads_answer db (List.filter keep (leads db)))
      \/ (get_leads query db
          = (Sent {| status := 500;
                     body := ErrorBody "Failed to fetch leads." |},
             db)
          /\ ((exists v, query !! "salesAgentId" = Some v /\ v <> ""
                         /\ castObjectId v = None)
              \/ (exists v t, query !! "tags" = Some v /\ v <> ""
                              /\ t ∈ Js.split Js.comma v
                              /\ castObjectId t = None)))).
Proof.
  split; [apply get_leads_status; discriminate|].
  split; [apply get_leads_no_filter|].
  rewrite get_leads_run.
  destruct (cast_reference (present query "salesAgentId")) as [agent|] eqn:Ha.
  - destruct (cast_tags (present query "tags")) as [tags|] eqn:Ht.
    + left. exists (lead_matches agent tags (query_of query)).
      split; [|reflexivity].
      intros l. apply lead_matches_selected. split; assumption.
    + right. split; [reflexivity|]. right.
      destruct (present query "tags") as [v|] eqn:Hp; [|discriminate].
      apply present_Some in Hp as [Hk Hv]. simpl in Ht.
      destruct (cast_all (Js.split Js.comma v)) eqn:Hc; [discriminate|].
      apply cast_all_None in Hc as (t & Hin & Hnone). exists v, t. auto.
  - right. split; [reflexivity|]. left.
    destruct (present query "salesAgentId") as [v|] eqn:Hp; [|discriminate].
    apply present_Some in Hp as [Hk Hv]. simpl in Ha.
    destruct (castObjectId v) eqn:Hc; [discriminate|]. exists v. auto.
Qed.

(** *** The tags filter *)

Lemma split_comma_free (t : string) :
  comma_free t = true -> Js.split Js.comma t = [t].
Proof.
  induction t as [|c t IH]; simpl; [reflexivity|].
  intros [Hc Ht]%andb_true_iff. apply negb_true_iff in Hc.
  rewrite Hc, (IH Ht). reflexivity.
Qed.

Lemma split_append (t s : string) :
  comma_free t = true ->
  Js.split Js.comma (String.append t (String Js.comma s))
  = t :: Js.split Js.comma s.
Proof.
  induction t as [|c t IH]; simpl; [reflexivity|].
  intros [Hc Ht]%andb_true_iff. apply negb_true_iff in Hc.
  rewrite Hc, (IH Ht). reflexivity.
Qed.

Lemma split_comma_separated (ts : list string) :
  ts <> [] -> Forall (fun t => comma_free t = true) ts ->
  Js.split Js.comma (comma_separated ts) = ts.
Proof.
  induction ts as [|t rest IH]; [congruence|].
  intros _ Hall. apply Forall_cons in Hall as [Ht Hrest].
  destruct rest as [|t' rest'].
  - simpl. apply split_comma_free, Ht.
  - change (comma_separated (t :: t' :: rest'))
      with (String.append t (String Js.comma (comma_separated (t' :: rest')))).
    rewrite split_append by exact Ht. f_equal. apply IH; [discriminate | exact Hrest].
Qed.

Lemma get_leads_tags_run (s : string) (db : Db) :
  s <> "" ->
  get_leads {[ "tags" := s ]} db =
    match cast_all (Js.split Js.comma s) with
    | Some os =>
        leads_answer db
          (List.filter
             (fun l => existsb (fun o => bool_decide (o ∈ os)) (lead_tags l))
             (leads db))
    | None => (fetch_leads_failed, db)
    end.
Proof.
  intros Hs. rewrite get_leads_run.
  assert (Hq : query_of {[ "tags" := s ]}
               = with_tags_in (Js.split Js.comma s) empty_query).
  { rewrite query_of_fields. unfold present.
    rewrite lookup_singleton_eq, !lookup_singleton_ne by discriminate.
    destruct s; [congruence | reflexivity]. }
  assert (Hp : present {[ "tags" := s ]} "tags" = Some s).
  { apply present_Some. rewrite lookup_singleton_eq. auto. }
  unfold present at 1. rewrite lookup_singleton_ne by discriminate.
  rewrite Hp. simpl.
  destruct (cast_all (Js.split Js.comma s)) as [os|]; simpl; [|reflexivity].
  rewrite Hq. reflexivity.
Qed.

Lemma get_leads_tags (s : string) (db : Db) :
  s <> "" ->
  all_cast (Js.split Js.comma s) ->
  get_leads {[ "tags" := s ]} db
  = leads_answer db (filter (tags_intersect (Js.split Js.comma s)) (leads db)).
Proof.
  intros Hs [os Hos]%cast_all_all_cast.
  rewrite get_leads_tags_run, Hos by exact Hs.
  f_equal. apply List_filter_decide. intros l.
  apply existsb_tags_intersect, Hos.
Qed.

(** C2, where the claim fails: the request GET /leads?tags= carries the
    empty filter string, which the truthiness test skips, so a lead tagged
    only [c] is returned although its tags meet neither the empty tag (the
    one piece the string splits into) nor an empty set of tags; and the
    request GET /leads?tags=a,b lists two tags that are no identifiers, so
    the query is rejected and the answer is a 500, not a list. *)
Lemma tags_filter_claim_fails_on_empty_string :
  ~ tags_filter_claim [""] (leads_only [lead_tagged 1 [12%N]])
  /\ ~ tags_filter_claim [] (leads_only [lead_tagged 1 [12%N]])
  /\ ~ tags_filter_claim ["a"; "b"] (leads_only []).
Proof. repeat split; intros H; vm_compute in H; discriminate H. Qed.

(** C2 (amended): for every store and every non-empty filter string
    [t1,...,tn] whose tags are all identifiers that cast,
    GET /leads?tags=t1,...,tn answers exactly the stored leads whose tags
    have at least one element among the tags [t1,...,tn] denote; when one
    of the listed tags does not cast, the answer is a 500 and no list. *)
Theorem get_leads_tags_intersection (ts : list string) (db : Db) :
  Forall (fun t => comma_free t = true) ts ->
  comma_separated ts <> "" ->
  (all_cast ts ->
   tags_filter_claim ts db
   /\ (forall l, l ∈ filter (tags_intersect ts) (leads db)
                 <-> l ∈ leads db
                     /\ exists o t, o ∈ lead_tags l /\ t ∈ ts
                                    /\ castObjectId t = Some o))
  /\ (~ all_cast ts ->
      get_leads {[ "tags" := comma_separated ts ]} db
      = (Sent {| status := 500; body := ErrorBody "Failed to fetch leads." |},
         db)).
Proof.
  intros Hfree Hne.
  assert (Hsplit : Js.split Js.comma (comma_separated ts) = ts).
  { apply split_comma_separated; [|exact Hfree].
    intros ->. apply Hne. reflexivity. }
  split.
  - intros Hcast. split.
    + unfold tags_filter_claim. rewrite get_leads_tags.
      * rewrite Hsplit. reflexivity.
      * exact Hne.
      * rewrite Hsplit. exact Hcast.
    + intros l. rewrite list_elem_of_filter, tags_intersect_exists. tauto.
  - intros Hcast. rewrite get_leads_tags_run by exact Hne. rewrite Hsplit.
    destruct (cast_all ts) as [os|] eqn:Hos; [|reflexivity].
    exfalso. apply Hcast, cast_all_all_cast. eauto.
Qed.

Lemma get_leads_tags_intersection_witness :
  (Forall (fun t => comma_free t = true) [tag_a; tag_b]
   /\ comma_separated [tag_a; tag_b] <> ""
   /\ all_cast [tag_a; tag_b])
  /\ tags_filter_claim [tag_a; tag_b]
       (leads_only [lead_tagged 1 [12%N]; lead_tagged 2 [10%N; 12%N]])
  /\ (forall l,
        l ∈ filter (tags_intersect [tag_a; tag_b])
              (leads (leads_only [lead_tagged 1 [12%N];
                                  lead_tagged 2 [10%N; 12%N]]))
        <-> l ∈ leads (leads_only [lead_tagged 1 [12%N];
                                   lead_tagged 2 [10%N; 12%N]])
            /\ exists o t, o ∈ lead_tags l /\ t ∈ [tag_a; tag_b]
                           /\ castObjectId t = Some o).
Proof.
  assert (Hfree : Forall (fun t => comma_free t = true) [tag_a; tag_b])
    by (repeat constructor).
  assert (Hne : comma_separated [tag_a; tag_b] <> "") by discriminate.
  assert (Hcast : all_cast [tag_a; tag_b])
    by (repeat constructor; eexists; reflexivity).
  split; [auto|].
  exact (proj1 (get_leads_tags_intersection [tag_a; tag_b] _ Hfree Hne) Hcast).
Defined.

(** The spec's example: under [tags=a,b], [a], [b] and [c] being the
    identifiers of three tags, the lead tagged [{c}] is left out and the
    lead tagged [{a,c}] is returned. *)
Example get_leads_tags_a_b :
  get_leads {[ "tags" := comma_separated [tag_a; tag_b] ]}
    (leads_only [lead_tagged 1 [12%N]; lead_tagged 2 [10%N; 12%N]])
  = leads_answer (leads_only [lead_tagged 1 [12%N]; lead_tagged 2 [10%N; 12%N]])
      [lead_tagged 2 [10%N; 12%N]].
Proof. vm_compute. reflexivity. Qed.

(** ** POST /agents *)

Lemma post_agents_run (email_syntax_ok : string -> bool) (fresh : ObjectId)
  (body : JsObject) (db : Db) :
  post_agents email_syntax_ok fresh body db =
    match body !! "email" with
    | None => (Sent validation_response, db)
    | Some email =>
        if negb (email_syntax_ok email) then (Sent validation_response, db)
        else if email_taken email db then (Sent conflict_response, db)
        else
          let doc := {| agent_id := fresh;
                        agent_name := default "" (body !! "name");
                        agent_email := email |} in
          (Sent {| status := 201; body := AgentBody doc |},
           set_agents (agents db ++ [doc]) db)
    end.
Proof.
  unfold post_agents, addAgent, SalesAgent_save, email_taken. step_handler.
  destruct (body !! "email") as [email|]; [|reflexivity].
  destruct (email_syntax_ok email); simpl; [|reflexivity].
  step_handler.
  destruct (existsb _ (agents db)); reflexivity.
Qed.





(** ** POST /leads/:id/comments *)

Lemma post_leads_id_comments_run (comment_paths_ok : JsObject -> bool)
  (fresh : ObjectId) (now : Z) (id : string) (body : JsObject) (db : Db) :
  post_leads_id_comments comment_paths_ok fresh now id body db =
    match castObjectId id with
    | None => (Sent comment_failed, db)
    | Some o =>
        match List.find (fun l => N.eqb (lead_id l) o) (leads db) with
        | None => (Sent lead_not_found, db)
        | Some _ =>
            match cast_reference (body !! "author") with
            | None => (Sent comment_failed, db)
            | Some author =>
                if comment_paths_ok (<["lead" := id]> body)
                then
                  let doc := new_comment fresh now o author body in
                  (Sent {| status := 201; body := CommentBody doc |},
                   set_comments (comments db ++ [doc]) db)
                else (Sent comment_failed, db)
            end
        end
    end.
Proof.
  unfold post_leads_id_comments, addComment, Comment_save. step_handler.
  destruct (castObjectId id) as [o|] eqn:Hid; [|reflexivity].
  destruct (List.find _ (leads db)) as [l|]; [|reflexivity].
  step_handler. rewrite lookup_insert_eq, Hid.
  rewrite !lookup_insert_ne by discriminate.
  destruct (cast_reference (body !! "author")) as [author|]; [|reflexivity].
  destruct (comment_paths_ok _); reflexivity.
Qed.

Lemma find_lead_unresolved (id : string) (o : ObjectId) (db : Db) :
  castObjectId id = Some o -> unresolved id db ->
  List.find (fun l => N.eqb (lead_id l) o) (leads db) = None.
Proof.
  intros Hid Hun. destruct (List.find _ (leads db)) as [l|] eqn:Hf;
    [|reflexivity].
  apply find_some in Hf as [Hin Heq]. apply N.eqb_eq in Heq.
  exfalso. apply (Hun l); [apply list_elem_of_In, Hin | congruence].
Qed.

(** C5, where the claim fails: the identifier [abc] resolves to no lead, yet
    it is not answered 404: it does not cast to an ObjectId, the lookup
    throws, and the handler's [catch] answers 400 "Failed to add
    comment.". *)
Lemma comment_on_missing_lead_claim_fails_on_malformed_id :
  ~ comment_on_missing_lead_claim any_comment 1%N 0 "abc" ∅ empty_db.
Proof.
  intros H.
  assert (Hun : unresolved "abc" empty_db).
  { intros l Hl. apply not_elem_of_nil in Hl. contradiction. }
  specialize (H Hun). vm_compute in H. discriminate H.
Qed.

(** C5 (amended): for every lead identifier that casts to an ObjectId and
    resolves to no stored lead, POST /leads/:id/comments answers 404 "Lead
    not found."; for one that does not cast it answers 400 "Failed to add
    comment.".  Either way the store, and so the Comments collection, is
    left unchanged. *)
Theorem comment_on_missing_lead (comment_paths_ok : JsObject -> bool)
  (fresh : ObjectId) (now : Z) (id : string) (body : JsObject) (db : Db) :
  unresolved id db ->
  post_leads_id_comments comment_paths_ok fresh now id body db
  = (Sent match castObjectId id with
          | Some _ => lead_not_found
          | None => comment_failed
          end,
     db).
Proof.
  intros Hun. rewrite post_leads_id_comments_run.
  destruct (castObjectId id) as [o|] eqn:Hid; [|reflexivity].
  rewrite (find_lead_unresolved id o db Hid Hun). reflexivity.
Qed.

Lemma comment_on_missing_lead_witness :
  unresolved "0000000000000000000000a1" empty_db
  /\ post_leads_id_comments any_comment 1%N 0 "0000000000000000000000a1"
       {[ "text" := "hello" ]} empty_db
     = (Sent lead_not_found, empty_db).
Proof.
  assert (Hun : unresolved "0000000000000000000000a1" empty_db).
  { intros l Hl. apply not_elem_of_nil in Hl. contradiction. }
  split; [exact Hun|].
  exact (comment_on_missing_lead any_comment 1%N 0 "0000000000000000000000a1"
           {[ "text" := "hello" ]} empty_db Hun).
Defined.

(** C10: a comment stored by POST /leads/:id/comments has as its [lead] the
    identifier of the route, whatever the body says.  A request either
    stores nothing, or stores exactly one comment, whose [lead] is the
    ObjectId the route parameter casts to; and a [lead] property in the body
    changes nothing in what the request does. *)
Theorem posted_comment_lead_is_route_id (comment_paths_ok : JsObject -> bool)
  (fresh : ObjectId) (now : Z) (id : string) (body : JsObject) (db : Db) :
  (forall other : string,
     post_leads_id_comments comment_paths_ok fresh now id
       (<["lead" := other]> body) db
     = post_leads_id_comments comment_paths_ok fresh now id body db)
  /\ ((comments (post_leads_id_comments comment_paths_ok fresh now id body db).2
       = comments db
       /\ forall c, (post_leads_id_comments comment_paths_ok fresh now id body db).1
                    <> Sent {| status := 201; body := CommentBody c |})
      \/ (exists c,
            castObjectId id = Some (comment_lead c)
            /\ post_leads_id_comments comment_paths_ok fresh now id body db
               = (Sent {| status := 201; body := CommentBody c |},
                  set_comments (comments db ++ [c]) db))).
Proof.
  split.
  - intros other. rewrite !post_leads_id_comments_run.
    rewrite insert_insert_eq.
    rewrite lookup_insert_ne by discriminate.
    unfold new_comment. rewrite lookup_insert_ne by discriminate.
    reflexivity.
  - rewrite post_leads_id_comments_run.
    destruct (castObjectId id) as [o|]; [|left; split; [reflexivity|discriminate]].
    destruct (List.find _ (leads db));
      [|left; split; [reflexivity|discriminate]].
    destruct (cast_reference (body !! "author")) as [author|];
      [|left; split; [reflexivity|discriminate]].
    destruct (comment_paths_ok _);
      [|left; split; [reflexivity|discriminate]].
    right. exists (new_comment fresh now o author body). split; reflexivity.
Qed.

(** ** GET /leads/:id/comments *)

Lemma insert_desc_perm (c : CommentDoc) (l : list CommentDoc) :
  insert_desc c l ≡ₚ c :: l.
Proof.
  induction l as [|d l IH]; simpl; [reflexivity|].
  destruct (comment_createdAt d <=? comment_createdAt c); [reflexivity|].
  rewrite IH. apply Permutation_swap.
Qed.

Lemma sort_createdAt_desc_perm (l : list CommentDoc) :
  sort_createdAt_desc l ≡ₚ l.
Proof.
  induction l as [|c l IH]; simpl; [reflexivity|].
  rewrite insert_desc_perm, IH. reflexivity.
Qed.

Lemma insert_desc_sorted (c : CommentDoc) (l : list CommentDoc) :
  StronglySorted newer_or_same l ->
  StronglySorted newer_or_same (insert_desc c l).
Proof.
  induction 1 as [|d l Hsorted IH Hd]; simpl.
  - repeat constructor.
  - destruct (Z.leb_spec (comment_createdAt d) (comment_createdAt c)) as [Hle|Hlt].
    + constructor; [constructor; assumption|].
      constructor; [exact Hle|].
      eapply Forall_impl; [exact Hd|]. unfold newer_or_same. simpl. intros; lia.
    + constructor; [exact IH|].
      rewrite insert_desc_perm. constructor; [|exact Hd].
      unfold newer_or_same. lia.
Qed.

Lemma sort_createdAt_desc_sorted (l : list CommentDoc) :
  StronglySorted newer_or_same (sort_createdAt_desc l).
Proof.
  induction l as [|c l IH]; simpl; [constructor|].
  apply insert_desc_sorted, IH.
Qed.

Lemma populated_newest_first (db : Db) (l : list CommentDoc) :
  StronglySorted newer_or_same l -> newest_first (map (populate_author db) l).
Proof.
  unfold newest_first. induction 1 as [|c l Hs IH Hc]; simpl; constructor.
  - exact IH.
  - apply Forall_forall. intros v Hv.
    apply list_elem_of_In, in_map_iff in Hv as (d & <- & Hd).
    simpl. rewrite Forall_forall in Hc. apply Hc, list_elem_of_In, Hd.
Qed.

Lemma populate_author_expanded (db : Db) (c : CommentDoc) :
  author_expanded db (populate_author db c).
Proof.
  unfold author_expanded, populate_author, find_agent. simpl.
  destruct (comment_author c) as [o|]; simpl; [|discriminate].
  destruct (List.find _ (agents db)) as [a|] eqn:Hf; simpl.
  - apply find_some in Hf as [Hin Heq]. apply N.eqb_eq in Heq.
    exists a. split; [apply list_elem_of_In, Hin|]. split; [congruence|].
    reflexivity.
  - intros a Ha [= ->]. apply list_elem_of_In in Ha.
    pose proof (find_none _ _ Hf a Ha) as Hne. simpl in Hne.
    rewrite N.eqb_refl in Hne. discriminate Hne.
Qed.

Lemma populated_docs (db : Db) (l : list CommentDoc) :
  map cv_doc (map (populate_author db) l) = l.
Proof.
  induction l as [|c l IH]; simpl; [reflexivity|]. rewrite IH. reflexivity.
Qed.

(** C6: for every lead and every order in which its comments were stored,
    GET /leads/:id/comments answers 200 with exactly the comments of that
    lead, newest first, each with its author expanded to the name and
    email (beside the identifier) of the stored agent it refers to, and to
    null when it refers to none. *)
Theorem comments_of_lead_newest_first (ls : list LeadDoc) (ags : list AgentDoc)
  (cs stored : list CommentDoc) (id : string) (o : ObjectId) :
  castObjectId id = Some o ->
  stored ≡ₚ cs ->
  let db := {| leads := ls; agents := ags; comments := stored |} in
  exists views,
    get_leads_id_comments id db
    = (Sent {| status := 200; body := CommentsBody views |}, db)
    /\ newest_first views
    /\ map cv_doc views ≡ₚ filter (fun c => comment_lead c = o) cs
    /\ Forall (author_expanded db) views.
Proof.
  intros Hid Hperm db.
  exists (map (populate_author db)
            (sort_createdAt_desc
               (List.filter (fun c => N.eqb (comment_lead c) o) stored))).
  split; [|split; [|split]].
  - unfold get_leads_id_comments, getCommentsByLead. step_handler.
    rewrite Hid. reflexivity.
  - apply populated_newest_first, sort_createdAt_desc_sorted.
  - rewrite populated_docs, sort_createdAt_desc_perm.
    rewrite (List_filter_decide (fun c => comment_lead c = o)).
    + rewrite Hperm. reflexivity.
    + intros c. apply N.eqb_eq.
  - apply Forall_forall. intros v Hv.
    apply list_elem_of_In, in_map_iff in Hv as (c & <- & _).
    apply populate_author_expanded.
Qed.

Lemma comments_of_lead_newest_first_witness :
  (castObjectId "0000000000000000000000a1" = Some 161%N
   /\ [older; newer] ≡ₚ [newer; older])
  /\ exists views,
       get_leads_id_comments "0000000000000000000000a1" thread_db
       = (Sent {| status := 200; body := CommentsBody views |}, thread_db)
       /\ newest_first views
       /\ map cv_doc views
          ≡ₚ filter (fun c => comment_lead c = 161%N) [newer; older]
       /\ Forall (author_expanded thread_db) views.
Proof.
  assert (Hid : castObjectId "0000000000000000000000a1" = Some 161%N)
    by reflexivity.
  assert (Hperm : [older; newer] ≡ₚ [newer; older]) by apply Permutation_swap.
  split; [auto|].
  exact (comments_of_lead_newest_first [lead_a1] [ann] [newer; older]
           [older; newer] "0000000000000000000000a1" 161%N Hid Hperm).
Defined.

Example get_leads_id_comments_thread :
  get_leads_id_comments "0000000000000000000000a1" thread_db
  = (Sent {| status := 200;
             body := CommentsBody
                       [ {| cv_doc := newer; cv_author := None |};
                         {| cv_doc := older;
                            cv_author := Some {| author_id := 1%N;
                                                 author_name := "Ann";
                                                 author_email := "ann@crm.io" |}
                         |} ] |},
     thread_db).
Proof. vm_compute. reflexivity. Qed.

(** ** DELETE /leads/:id *)

Lemma delete_leads_id_run (id : string) (db : Db) :
  delete_leads_id id db =
    match castObjectId id with
    | None =>
        (Sent {| status := 500; body := ErrorBody "Failed to delete lead." |},
         db)
    | Some o =>
        match remove_first (fun l => N.eqb (lead_id l) o) (leads db) with
        | (Some _, rest) => (Sent lead_deleted, set_leads rest db)
        | (None, rest) => (Sent lead_not_found, set_leads rest db)
        end
    end.
Proof.
  unfold delete_leads_id, deleteLead. step_handler.
  destruct (castObjectId id) as [o|]; [|reflexivity].
  destruct (remove_first _ (leads db)) as [[l|] rest]; reflexivity.
Qed.

(** C8: DELETE /leads/:id never touches the Comments collection.  When it
    deletes a lead (200), the lead was stored, no stored lead has its
    identifier any more (identifiers being unique in the collection), and
    every comment that referred to it is still stored, now an orphan. *)
Theorem delete_lead_keeps_comments (id : string) (db : Db) :
  comments (delete_leads_id id db).2 = comments db
  /\ ((delete_leads_id id db).1 = Sent lead_deleted ->
      exists o,
        castObjectId id = Some o
        /\ (exists l, l ∈ leads db /\ lead_id l = o)
        /\ (NoDup (map lead_id (leads db)) ->
            forall l, l ∈ leads (delete_leads_id id db).2 -> lead_id l <> o)
        /\ (forall c, c ∈ comments db -> comment_lead c = o ->
                      c ∈ comments (delete_leads_id id db).2)).
Proof.
  rewrite delete_leads_id_run.
  destruct (castObjectId id) as [o|]; [|split; [reflexivity|discriminate]].
  pose proof (remove_first_spec (fun l => N.eqb (lead_id l) o) (leads db))
    as Hspec.
  pose proof (remove_first_gone lead_id o (leads db)) as Hgone.
  destruct (remove_first _ (leads db)) as [[l|] rest];
    (split; [reflexivity|]); [|discriminate].
  intros _. exists o. split; [reflexivity|].
  destruct Hspec as (l1 & l2 & Hl & -> & Hid & _).
  apply N.eqb_eq in Hid. simpl in *. repeat split.
  - exists l. split; [|exact Hid]. rewrite Hl. set_solver.
  - intros Hnd l' Hl'. apply Hgone; [exact Hnd | exact Hl' | discriminate].
  - intros c Hc _. exact Hc.
Qed.

Lemma delete_lead_keeps_comments_witness :
  comments (delete_leads_id "0000000000000000000000a1" thread_db).2
  = [older; newer]
  /\ (delete_leads_id "0000000000000000000000a1" thread_db).1 = Sent lead_deleted
  /\ leads (delete_leads_id "0000000000000000000000a1" thread_db).2 = []
  /\ older ∈ comments (delete_leads_id "0000000000000000000000a1" thread_db).2.
Proof.
  destruct (delete_lead_keeps_comments "0000000000000000000000a1" thread_db)
    as [Hframe Horphan].
  split; [exact Hframe|]. split; [reflexivity|]. split; [reflexivity|].
  destruct (Horphan eq_refl) as (o & Ho & _ & _ & Hkept).
  apply (Hkept older); [set_solver|].
  vm_compute in Ho. injection Ho as <-. reflexivity.
Defined.

(** ** Sample requests *)

(** Ann has a lead: the claim asks for the 400 conflict, which the guard
    gives once [mongoose] is bound, and the handler as written never sends. *)
Example delete_agents_id_referenced :
  delete_agents_id ann_id assigned_db
  = (Unhandled (Js.ReferenceError "error"), assigned_db)
  /\ delete_agents_id_in ("mongoose" :: handler_scope) ann_id assigned_db
     = (Sent {| status := 400;
                body := ErrorBody
                  "Agent has assigned leads. Reassign or delete leads first." |},
        assigned_db).
Proof. split; vm_compute; reflexivity. Qed.

(** Ann has no lead: the claim asks for 200 and her removal; once
    [mongoose] is bound that is what happens, but as written nothing is sent
    and GET /agents still lists her. *)
Example delete_agents_id_unreferenced :
  delete_agents_id ann_id ann_db = (Unhandled (Js.ReferenceError "error"), ann_db)
  /\ get_agents (delete_agents_id ann_id ann_db).2
     = (Sent {| status := 200; body := AgentsBody [ann] |}, ann_db)
  /\ delete_agents_id_in ("mongoose" :: handler_scope) ann_id ann_db
     = (Sent {| status := 200; body := MessageBody "Agent deleted." |}, empty_db).
Proof. repeat split; vm_compute; reflexivity. Qed.

Lemma get_leads_empty_or_unknown_key_ignored_witness :
  ("2" = "" \/ "page" ∉ filter_keys)
  /\ get_leads (<["page" := "2"]> {[ "status" := "" ]}) assigned_db
     = get_leads (delete "page" {[ "status" := "" ]}) assigned_db.
Proof.
  assert (H : "2" = "" \/ "page" ∉ filter_keys).
  { right. apply (bool_decide_unpack _). vm_compute. exact I. }
  split; [exact H|].
  exact (get_leads_empty_or_unknown_key_ignored {[ "status" := "" ]} "page" "2"
           assigned_db H).
Defined.

(** [?status=] and [?tags=] return every lead, not the leads with an empty
    status or an empty tag. *)
Example get_leads_empty_status_or_tags :
  get_leads {[ "status" := "" ]} assigned_db
  = leads_answer assigned_db [assigned_lead]
  /\ get_leads {[ "tags" := "" ]} assigned_db
     = leads_answer assigned_db [assigned_lead].
Proof. split; vm_compute; reflexivity. Qed.

(** A body that names another lead: the stored comment is on the route's. *)
Example post_comment_overrides_body_lead :
  post_leads_id_comments any_comment 12%N 3000 "0000000000000000000000a1"
    {[ "lead" := "0000000000000000000000ff"; "text" := "note" ]} thread_db
  = (Sent {| status := 201;
             body := CommentBody
                       {| comment_id := 12%N; comment_lead := 161%N;
                          comment_author := None; comment_text := "note";
                          comment_createdAt := 3000 |} |},
     set_comments
       [older; newer;
        {| comment_id := 12%N; comment_lead := 161%N; comment_author := None;
           comment_text := "note"; comment_createdAt := 3000 |}]
       thread_db).
Proof. vm_compute. reflexivity. Qed.

(** * Further properties of index.js *)

(** ** GET /leads/:id *)

Lemma find_by_id_unique {A} (key : A -> ObjectId) (l : list A) (x : A) :
  NoDup (map key l) -> x ∈ l ->
  List.find (fun y => N.eqb (key y) (key x)) l = Some x.
Proof.
  induction l as [|a l IH]; simpl; intros Hnd Hx.
  - apply not_elem_of_nil in Hx. contradiction.
  - apply NoDup_cons in Hnd as [Ha Hnd].
    apply elem_of_cons in Hx as [->|Hx]; [rewrite N.eqb_refl; reflexivity|].
    destruct (N.eqb_spec (key a) (key x)) as [Heq|_]; [|apply IH; assumption].
    exfalso. apply Ha. rewrite Heq. apply list_elem_of_fmap. eauto.
Qed.

Lemma get_leads_id_run (id : string) (db : Db) :
  get_leads_id id db =
    match castObjectId id with
    | None => (Return (OtherJson lead_fetch_failed), db)
    | Some o =>
        match List.find (fun l => N.eqb (lead_id l) o) (leads db) with
        | None => (Return (OtherJson lead_not_found), db)
        | Some l => (Return (LeadJson (populate_lead db l)), db)
        end
    end.
Proof.
  unfold get_leads_id, getLeadById. step_handler.
  destruct (castObjectId id) as [o|]; [|reflexivity].
  destruct (List.find _ (leads db)); reflexivity.
Qed.

Lemma populate_lead_expanded (db : Db) (l : LeadDoc) :
  agent_expanded db (populate_lead db l).
Proof.
  unfold agent_expanded, populate_lead, find_agent. simpl.
  destruct (lead_salesAgentId l) as [o|]; [|discriminate].
  destruct (List.find _ (agents db)) as [a|] eqn:Hf.
  - apply find_some in Hf as [Hin Heq]. apply N.eqb_eq in Heq.
    split; [apply list_elem_of_In, Hin | congruence].
  - intros a Ha [= ->]. apply list_elem_of_In in Ha.
    pose proof (find_none _ _ Hf a Ha) as Hne. simpl in Hne.
    rewrite N.eqb_refl in Hne. discriminate Hne.
Qed.

(** X1: GET /leads/:id never changes the store and never lets an error
    escape.  An identifier that does not cast is answered 500; one that
    casts is answered 404 when no stored lead has it, and otherwise with a
    stored lead of that identifier whose agent is expanded to the stored
    agent it refers to, or to null when it refers to none. *)
Theorem get_leads_id_fetches_expanded_lead (id : string) (db : Db) :
  exists reply,
    get_leads_id id db = (Return reply, db)
    /\ match castObjectId id with
       | None => reply = OtherJson lead_fetch_failed
       | Some o =>
           (reply = OtherJson lead_not_found
            /\ forall l, l ∈ leads db -> lead_id l <> o)
           \/ (exists v, reply = LeadJson v
                         /\ lv_doc v ∈ leads db
                         /\ lead_id (lv_doc v) = o
                         /\ agent_expanded db v)
       end.
Proof.
  rewrite get_leads_id_run.
  destruct (castObjectId id) as [o|]; [|eexists; split; reflexivity].
  destruct (List.find _ (leads db)) as [l|] eqn:Hf;
    eexists; (split; [reflexivity|]).
  - right. exists (populate_lead db l). apply find_some in Hf as [Hin Heq].
    apply N.eqb_eq in Heq. repeat split; simpl.
    + apply list_elem_of_In, Hin.
    + exact Heq.
    + apply populate_lead_expanded.
  - left. split; [reflexivity|]. intros l Hl Heq.
    apply list_elem_of_In in Hl. pose proof (find_none _ _ Hf l Hl) as Hne.
    simpl in Hne. apply N.eqb_neq in Hne. contradiction.
Qed.

(** X2: with identifiers unique among the stored leads, every lead that
    GET /leads lists can be fetched through GET /leads/:id by any string
    that casts to its identifier, and comes back as it is listed. *)
Theorem listed_lead_is_fetched_by_id (id : string) (l : LeadDoc) (db : Db) :
  NoDup (map lead_id (leads db)) ->
  l ∈ leads db ->
  castObjectId id = Some (lead_id l) ->
  get_leads_id id db = (Return (LeadJson (populate_lead db l)), db)
  /\ exists vs, listed (get_leads ∅ db).1 = Some vs /\ populate_lead db l ∈ vs.
Proof.
  intros Hnd Hl Hid. split.
  - rewrite get_leads_id_run, Hid, (find_by_id_unique lead_id _ l Hnd Hl).
    reflexivity.
  - rewrite get_leads_no_filter. eexists. split; [reflexivity|].
    apply list_elem_of_In, in_map, list_elem_of_In, Hl.
Qed.

Lemma listed_lead_is_fetched_by_id_witness :
  (NoDup (map lead_id (leads thread_db))
   /\ lead_a1 ∈ leads thread_db
   /\ castObjectId "0000000000000000000000A1" = Some (lead_id lead_a1))
  /\ get_leads_id "0000000000000000000000A1" thread_db
     = (Return (LeadJson (populate_lead thread_db lead_a1)), thread_db)
  /\ exists vs, listed (get_leads ∅ thread_db).1 = Some vs
                /\ populate_lead thread_db lead_a1 ∈ vs.
Proof.
  assert (Hnd : NoDup (map lead_id (leads thread_db)))
    by (repeat constructor; set_solver).
  assert (Hl : lead_a1 ∈ leads thread_db) by (simpl; set_solver).
  assert (Hid : castObjectId "0000000000000000000000A1" = Some (lead_id lead_a1))
    by reflexivity.
  split; [auto|].
  exact (listed_lead_is_fetched_by_id "0000000000000000000000A1" lead_a1
           thread_db Hnd Hl Hid).
Defined.

(** ** DELETE /leads/:id, then what *)

Lemma remove_first_none {A} (p : A -> bool) (l : list A) :
  (forall y, y ∈ l -> p y = false) -> remove_first p l = (None, l).
Proof.
  induction l as [|a l IH]; simpl; intros Hall; [reflexivity|].
  rewrite (Hall a) by set_solver. rewrite IH; [reflexivity|].
  intros y Hy. apply Hall. set_solver.
Qed.

Lemma find_none_of {A} (p : A -> bool) (l : list A) :
  (forall y, y ∈ l -> p y = false) -> List.find p l = None.
Proof.
  induction l as [|a l IH]; simpl; intros Hall; [reflexivity|].
  rewrite (Hall a) by set_solver. apply IH.
  intros y Hy. apply Hall. set_solver.
Qed.

Lemma set_leads_same (db : Db) : set_leads (leads db) db = db.
Proof. destruct db; reflexivity. Qed.

Lemma set_comments_same (db : Db) : set_comments (comments db) db = db.
Proof. destruct db; reflexivity. Qed.

Lemma set_agents_same (db : Db) : set_agents (agents db) db = db.
Proof. destruct db; reflexivity. Qed.

(** X3: with identifiers unique among the stored leads, a DELETE /leads/:id
    that answers 200 removes exactly the lead of that identifier and keeps
    the others in their order; from then on GET /leads/:id and a second
    DELETE /leads/:id with the same identifier answer 404, and GET /leads
    lists the leads that were kept. *)
Theorem deleted_lead_is_gone (id : string) (db db' : Db) :
  NoDup (map lead_id (leads db)) ->
  delete_leads_id id db = (Sent lead_deleted, db') ->
  (exists l1 l l2,
     castObjectId id = Some (lead_id l)
     /\ leads db = l1 ++ l :: l2
     /\ leads db' = l1 ++ l2
     /\ listed (get_leads ∅ db').1 = Some (map (populate_lead db') (l1 ++ l2)))
  /\ get_leads_id id db' = (Return (OtherJson lead_not_found), db')
  /\ delete_leads_id id db' = (Sent lead_not_found, db').
Proof.
  intros Hnd. rewrite delete_leads_id_run.
  destruct (castObjectId id) as [o|] eqn:Hid; [|discriminate].
  pose proof (remove_first_spec (fun l => N.eqb (lead_id l) o) (leads db))
    as Hspec.
  pose proof (remove_first_gone lead_id o (leads db) Hnd) as Hgone.
  destruct (remove_first _ (leads db)) as [[l|] rest]; [|discriminate].
  intros [= <-]. destruct Hspec as (l1 & l2 & Hl & -> & Hl_id & _).
  apply N.eqb_eq in Hl_id. simpl in Hgone.
  assert (Hnone : forall y, y ∈ l1 ++ l2 -> N.eqb (lead_id y) o = false).
  { intros y Hy. apply N.eqb_neq, Hgone; [exact Hy | discriminate]. }
  split; [|split].
  - exists l1, l, l2. subst o. repeat split; try assumption.
    rewrite get_leads_no_filter. reflexivity.
  - rewrite get_leads_id_run, Hid. simpl.
    rewrite (find_none_of _ _ Hnone). reflexivity.
  - rewrite delete_leads_id_run, Hid. simpl.
    rewrite (remove_first_none _ _ Hnone).
    change (l1 ++ l2) with (leads (set_leads (l1 ++ l2) db)) at 1.
    rewrite set_leads_same. reflexivity.
Qed.

Lemma deleted_lead_is_gone_witness :
  (NoDup (map lead_id (leads thread_db))
   /\ delete_leads_id "0000000000000000000000a1" thread_db
      = (Sent lead_deleted, set_leads [] thread_db))
  /\ get_leads_id "0000000000000000000000a1" (set_leads [] thread_db)
     = (Return (OtherJson lead_not_found), set_leads [] thread_db)
  /\ delete_leads_id "0000000000000000000000a1" (set_leads [] thread_db)
     = (Sent lead_not_found, set_leads [] thread_db).
Proof.
  assert (Hnd : NoDup (map lead_id (leads thread_db)))
    by (repeat constructor; set_solver).
  assert (Hdel : delete_leads_id "0000000000000000000000a1" thread_db
                 = (Sent lead_deleted, set_leads [] thread_db)) by reflexivity.
  split; [auto|].
  exact (proj2 (deleted_lead_is_gone "0000000000000000000000a1" thread_db
                  (set_leads [] thread_db) Hnd Hdel)).
Defined.

(** ** DELETE /comments/:id *)

Lemma delete_comments_id_run (id : string) (db : Db) :
  delete_comments_id id db =
    match castObjectId id with
    | None => (Sent comment_delete_failed, db)
    | Some o =>
        match remove_first (fun c => N.eqb (comment_id c) o) (comments db) with
        | (Some _, rest) => (Sent comment_deleted, set_comments rest db)
        | (None, rest) => (Sent comment_not_found, set_comments rest db)
        end
    end.
Proof.
  unfold delete_comments_id, deleteComment, Comment_findByIdAndDelete.
  step_handler.
  destruct (castObjectId id) as [o|]; [|reflexivity].
  destruct (remove_first _ (comments db)) as [[c|] rest]; reflexivity.
Qed.

Lemma get_leads_id_comments_run (id : string) (db : Db) :
  get_leads_id_comments id db =
    match castObjectId id with
    | None =>
        (Sent {| status := 500; body := ErrorBody "Failed to fetch comments." |},
         db)
    | Some o =>
        (Sent {| status := 200;
                 body := CommentsBody
                           (map (populate_author db)
                              (sort_createdAt_desc
                                 (List.filter
                                    (fun c => N.eqb (comment_lead c) o)
                                    (comments db)))) |},
         db)
    end.
Proof.
  unfold get_leads_id_comments, getCommentsByLead. step_handler.
  destruct (castObjectId id); reflexivity.
Qed.

Lemma listed_comment_is_stored (db : Db) (p : CommentDoc -> bool)
  (cs : list CommentDoc) (v : CommentView) :
  v ∈ map (populate_author db) (sort_createdAt_desc (List.filter p cs)) ->
  cv_doc v ∈ cs /\ p (cv_doc v) = true.
Proof.
  intros Hv. apply list_elem_of_In, in_map_iff in Hv as (c & <- & Hc).
  apply list_elem_of_In in Hc. rewrite sort_createdAt_desc_perm in Hc.
  apply list_elem_of_In, filter_In in Hc as [Hc Hp].
  split; [apply list_elem_of_In, Hc | exact Hp].
Qed.

(** X4: DELETE /comments/:id never touches leads or agents.  An identifier
    that does not cast is answered 500 and one no stored comment has 404,
    both leaving the store as it is; otherwise the first stored comment of
    that identifier is removed, the others keep their order, and the answer
    is 200.  With identifiers unique among the comments, no comments
    listing of any lead shows a comment of that identifier afterwards. *)
Theorem delete_comment_removes_one (id : string) (db : Db) :
  leads (delete_comments_id id db).2 = leads db
  /\ agents (delete_comments_id id db).2 = agents db
  /\ match castObjectId id with
     | None => delete_comments_id id db = (Sent comment_delete_failed, db)
     | Some o =>
         (delete_comments_id id db = (Sent comment_not_found, db)
          /\ forall c, c ∈ comments db -> comment_id c <> o)
         \/ (exists l1 c l2,
               comment_id c = o
               /\ comments db = l1 ++ c :: l2
               /\ (forall d, d ∈ l1 -> comment_id d <> o)
               /\ delete_comments_id id db
                  = (Sent comment_deleted, set_comments (l1 ++ l2) db)
               /\ (NoDup (map comment_id (comments db)) ->
                   forall lead vs v,
                     listed_comments
                       (get_leads_id_comments lead
                          (set_comments (l1 ++ l2) db)).1 = Some vs ->
                     v ∈ vs -> comment_id (cv_doc v) <> o))
     end.
Proof.
  rewrite delete_comments_id_run.
  destruct (castObjectId id) as [o|]; [|auto].
  pose proof (remove_first_spec (fun c => N.eqb (comment_id c) o) (comments db))
    as Hspec.
  pose proof (remove_first_gone comment_id o (comments db)) as Hgone.
  destruct (remove_first _ (comments db)) as [[c|] rest];
    (split; [reflexivity|]); (split; [reflexivity|]).
  - right. destruct Hspec as (l1 & l2 & Hcs & -> & Hc & Hl1).
    apply N.eqb_eq in Hc. exists l1, c, l2.
    split; [exact Hc|]. split; [exact Hcs|]. split; [|split; [reflexivity|]].
    + intros d Hd. rewrite forallb_forall in Hl1.
      apply list_elem_of_In, Hl1, negb_true_iff, N.eqb_neq in Hd. exact Hd.
    + intros Hnd lead vs v. rewrite get_leads_id_comments_run.
      destruct (castObjectId lead) as [o'|]; simpl; [|discriminate].
      intros [= <-] Hv. apply listed_comment_is_stored in Hv as [Hv _].
      simpl in Hgone. apply Hgone; [exact Hnd | exact Hv | discriminate].
  - left. destruct Hspec as [-> Hall]. rewrite set_comments_same.
    split; [reflexivity|]. intros c Hc. rewrite forallb_forall in Hall.
    apply list_elem_of_In, Hall, negb_true_iff, N.eqb_neq in Hc. exact Hc.
Qed.

Lemma delete_comment_removes_one_witness :
  delete_comments_id "00000000000000000000000a" thread_db
  = (Sent comment_deleted, set_comments [newer] thread_db)
  /\ get_leads_id_comments "0000000000000000000000a1"
       (set_comments [newer] thread_db)
     = (Sent {| status := 200;
                body := CommentsBody [{| cv_doc := newer; cv_author := None |}] |},
        set_comments [newer] thread_db).
Proof.
  destruct (delete_comment_removes_one "00000000000000000000000a" thread_db)
    as (_ & _ & Hcase).
  split; [|reflexivity].
  change (castObjectId "00000000000000000000000a") with (Some 10%N) in Hcase.
  destruct Hcase as [[Hnone _]|(l1 & c & l2 & _ & _ & _ & Hdel & _)].
  - vm_compute in Hnone. discriminate Hnone.
  - etransitivity; [exact Hdel|].
    assert (Hrun := Hdel). vm_compute in Hrun. injection Hrun as Hcs.
    f_equal. unfold set_comments. f_equal.
    first [exact Hcs | symmetry; exact Hcs].
Defined.

(** ** POST /leads/:id/comments, then GET /leads/:id/comments *)

Lemma sort_snoc_newest (c : CommentDoc) (l : list CommentDoc) :
  (forall d, d ∈ l -> comment_createdAt d < comment_createdAt c) ->
  sort_createdAt_desc (l ++ [c]) = c :: sort_createdAt_desc l.
Proof.
  induction l as [|d l IH]; intros Hnew; [reflexivity|].
  simpl. change (foldr insert_desc [] (l ++ [c]))
    with (sort_createdAt_desc (l ++ [c])).
  rewrite IH by (intros e He; apply Hnew; set_solver).
  simpl. assert (Hd : comment_createdAt d < comment_createdAt c)
    by (apply Hnew; set_solver).
  destruct (Z.leb_spec (comment_createdAt c) (comment_createdAt d));
    [lia | reflexivity].
Qed.

(** X5: a comment that POST /leads/:id/comments has stored (201) is in the
    listing GET /leads/:id/comments of the same identifier gives next; when
    it is newer than every comment stored for that lead before, it is the
    first of the listing and the earlier listing follows it unchanged. *)
Theorem posted_comment_is_listed (comment_paths_ok : JsObject -> bool)
  (fresh : ObjectId) (now : Z) (id : string) (body : JsObject) (db db' : Db)
  (c : CommentDoc) :
  post_leads_id_comments comment_paths_ok fresh now id body db
  = (Sent {| status := 201; body := CommentBody c |}, db') ->
  exists before after,
    listed_comments (get_leads_id_comments id db).1 = Some before
    /\ listed_comments (get_leads_id_comments id db').1 = Some after
    /\ populate_author db' c ∈ after
    /\ length after = S (length before)
    /\ ((forall d, d ∈ comments db -> comment_lead d = comment_lead c ->
                   comment_createdAt d < comment_createdAt c) ->
        after = populate_author db' c :: before).
Proof.
  rewrite post_leads_id_comments_run, !get_leads_id_comments_run.
  destruct (castObjectId id) as [o|]; [|discriminate].
  destruct (List.find _ (leads db)); [|discriminate].
  destruct (cast_reference (body !! "author")) as [author|]; [|discriminate].
  destruct (comment_paths_ok _); [|discriminate].
  intros [= <- <-]. simpl.
  set (c := new_comment fresh now o author body).
  set (db' := set_comments (comments db ++ [c]) db).
  assert (Hfilter :
    List.filter (fun d => N.eqb (comment_lead d) o) (comments db ++ [c])
    = List.filter (fun d => N.eqb (comment_lead d) o) (comments db) ++ [c]).
  { rewrite List.filter_app. simpl. rewrite N.eqb_refl. reflexivity. }
  assert (Hpop : forall l, map (populate_author db') l
                           = map (populate_author db) l) by reflexivity.
  eexists. eexists. split; [reflexivity|]. split; [reflexivity|].
  rewrite Hfilter. split; [|split].
  - apply list_elem_of_In, in_map, list_elem_of_In.
    rewrite sort_createdAt_desc_perm. set_solver.
  - rewrite !length_map.
    rewrite (Permutation_length (sort_createdAt_desc_perm _)).
    rewrite (Permutation_length (sort_createdAt_desc_perm _)).
    rewrite length_app. simpl. lia.
  - intros Hnew. rewrite sort_snoc_newest; [rewrite Hpop; reflexivity|].
    intros d Hd. apply list_elem_of_In, filter_In in Hd as [Hd Ho].
    apply N.eqb_eq in Ho. apply Hnew; [apply list_elem_of_In, Hd | exact Ho].
Qed.

Lemma posted_comment_is_listed_witness :
  post_leads_id_comments any_comment 12%N 3000 "0000000000000000000000a1"
    {[ "text" := "note" ]} thread_db
  = (Sent {| status := 201;
             body := CommentBody (new_comment 12%N 3000 161%N None
                                    {[ "text" := "note" ]}) |},
     set_comments
       [older; newer; new_comment 12%N 3000 161%N None {[ "text" := "note" ]}]
       thread_db)
  /\ exists before after,
       listed_comments
         (get_leads_id_comments "0000000000000000000000a1" thread_db).1
       = Some before
       /\ listed_comments
            (get_leads_id_comments "0000000000000000000000a1"
               (set_comments
                  [older; newer;
                   new_comment 12%N 3000 161%N None {[ "text" := "note" ]}]
                  thread_db)).1
          = Some after
       /\ length after = S (length before).
Proof.
  assert (Hpost :
    post_leads_id_comments any_comment 12%N 3000 "0000000000000000000000a1"
      {[ "text" := "note" ]} thread_db
    = (Sent {| status := 201;
               body := CommentBody (new_comment 12%N 3000 161%N None
                                      {[ "text" := "note" ]}) |},
       set_comments
         [older; newer; new_comment 12%N 3000 161%N None {[ "text" := "note" ]}]
         thread_db)) by reflexivity.
  split; [exact Hpost|].
  destruct (posted_comment_is_listed _ _ _ _ _ _ _ _ Hpost)
    as (before & after & Hb & Ha & _ & Hlen & _).
  exists before, after. auto.
Defined.

(** ** What changes the store *)

Lemma remove_first_failed_same {A} (p : A -> bool) (l : list A) :
  (remove_first p l).1 = None -> (remove_first p l).2 = l.
Proof.
  intros Hnone. pose proof (remove_first_spec p l) as Hspec.
  destruct (remove_first p l) as [[x|] rest]; simpl in *; [discriminate|].
  apply Hspec.
Qed.

(** X6: the store changes only when a writing request succeeds.  Every GET
    handler leaves it as it is, and so does every POST or DELETE that is
    answered with an error status or lets its error escape. *)
Theorem store_changes_only_on_successful_write
  (email_syntax_ok : string -> bool) (comment_paths_ok : JsObject -> bool)
  (LocalTZA : Z -> bool -> Z) (month_start : Z -> Z)
  (fresh : ObjectId) (now : Z) (id : string) (query body : JsObject) (db : Db) :
  ((get_leads query db).2 = db
   /\ (get_leads_id id db).2 = db
   /\ (get_agents db).2 = db
   /\ (get_leads_id_comments id db).2 = db
   /\ (get_report_last_week LocalTZA month_start now db).2 = db
   /\ (get_report_pipeline db).2 = db)
  /\ (failed (delete_leads_id id db).1 -> (delete_leads_id id db).2 = db)
  /\ (failed (delete_comments_id id db).1 -> (delete_comments_id id db).2 = db)
  /\ (failed (delete_agents_id id db).1 -> (delete_agents_id id db).2 = db)
  /\ (failed (post_agents email_syntax_ok fresh body db).1 ->
      (post_agents email_syntax_ok fresh body db).2 = db)
  /\ (failed (post_leads_id_comments comment_paths_ok fresh now id body db).1 ->
      (post_leads_id_comments comment_paths_ok fresh now id body db).2 = db).
Proof.
  split; [|split; [|split; [|split; [|split]]]].
  - repeat split.
    + rewrite get_leads_run.
      destruct (cast_reference (present query "salesAgentId")); [|reflexivity].
      destruct (cast_tags (present query "tags")); reflexivity.
    + rewrite get_leads_id_run. destruct (castObjectId id); [|reflexivity].
      destruct (List.find _ (leads db)); reflexivity.
    + rewrite get_leads_id_comments_run. destruct (castObjectId id); reflexivity.
  - rewrite delete_leads_id_run. destruct (castObjectId id) as [o|]; [|reflexivity].
    pose proof (remove_first_failed_same (fun l => N.eqb (lead_id l) o)
                  (leads db)) as Hsame.
    destruct (remove_first _ (leads db)) as [[l|] rest]; simpl.
    + unfold lead_deleted. simpl. lia.
    + intros _. simpl in Hsame. rewrite Hsame by reflexivity.
      apply set_leads_same.
  - rewrite delete_comments_id_run.
    destruct (castObjectId id) as [o|]; [|reflexivity].
    pose proof (remove_first_failed_same (fun c => N.eqb (comment_id c) o)
                  (comments db)) as Hsame.
    destruct (remove_first _ (comments db)) as [[c|] rest]; simpl.
    + lia.
    + intros _. simpl in Hsame. rewrite Hsame by reflexivity.
      apply set_comments_same.
  - unfold delete_agents_id, delete_agents_id_in. step_handler.
    rewrite mongoose_not_in_scope, error_not_in_scope. reflexivity.
  - rewrite post_agents_run. destruct (body !! "email") as [email|]; [|reflexivity].
    destruct (email_syntax_ok email); simpl; [|reflexivity].
    destruct (email_taken email db); simpl; [reflexivity | lia].
  - rewrite post_leads_id_comments_run.
    destruct (castObjectId id); [|reflexivity].
    destruct (List.find _ (leads db)); [|reflexivity].
    destruct (cast_reference (body !! "author")); [|reflexivity].
    destruct (comment_paths_ok _); simpl; [lia | reflexivity].
Qed.

(** ** More on the filters of GET /leads *)

Lemma filter_ext_bool {A} (p q : A -> bool) (l : list A) :
  (forall x, p x = q x) -> List.filter p l = List.filter q l.
Proof.
  intros H. induction l as [|a l IH]; simpl; [reflexivity|].
  rewrite H, IH. reflexivity.
Qed.

Lemma existsb_ext_bool {A} (f g : A -> bool) (l : list A) :
  (forall x, f x = g x) -> existsb f l = existsb g l.
Proof.
  intros H. induction l as [|a l IH]; simpl; [reflexivity|].
  rewrite H, IH. reflexivity.
Qed.

(** X7: the tags filter is read as a set: two non-empty filter strings that
    split into the same tags, in any order and with any repetition, get the
    same answer from GET /leads. *)
Theorem tags_filter_order_irrelevant (s1 s2 : string) (db : Db) :
  s1 <> "" -> s2 <> "" ->
  (forall t, t ∈ Js.split Js.comma s1 <-> t ∈ Js.split Js.comma s2) ->
  get_leads {[ "tags" := s1 ]} db = get_leads {[ "tags" := s2 ]} db.
Proof.
  intros H1 H2 Hsame. rewrite !get_leads_tags_run by assumption.
  destruct (cast_all (Js.split Js.comma s1)) as [os1|] eqn:Hc1;
    destruct (cast_all (Js.split Js.comma s2)) as [os2|] eqn:Hc2.
  - f_equal. apply filter_ext_bool. intros l. apply existsb_ext_bool.
    intros o. apply bool_decide_ext.
    rewrite (cast_all_Some _ _ Hc1), (cast_all_Some _ _ Hc2).
    split; intros (t & Ht & Hc); exists t; (split; [apply Hsame, Ht | exact Hc]).
  - apply cast_all_None in Hc2 as (t & Ht & Hnone). apply Hsame in Ht.
    assert (cast_all (Js.split Js.comma s1) = None)
      by (apply cast_all_None; eauto).
    congruence.
  - apply cast_all_None in Hc1 as (t & Ht & Hnone). apply Hsame in Ht.
    assert (cast_all (Js.split Js.comma s2) = None)
      by (apply cast_all_None; eauto).
    congruence.
  - reflexivity.
Qed.

Lemma tags_filter_order_irrelevant_witness :
  (comma_separated [tag_a; tag_b] <> ""
   /\ comma_separated [tag_b; tag_a; tag_a] <> ""
   /\ forall t, t ∈ Js.split Js.comma (comma_separated [tag_a; tag_b])
                <-> t ∈ Js.split Js.comma (comma_separated [tag_b; tag_a; tag_a]))
  /\ get_leads {[ "tags" := comma_separated [tag_a; tag_b] ]} thread_db
     = get_leads {[ "tags" := comma_separated [tag_b; tag_a; tag_a] ]} thread_db.
Proof.
  assert (H1 : comma_separated [tag_a; tag_b] <> "") by discriminate.
  assert (H2 : comma_separated [tag_b; tag_a; tag_a] <> "") by discriminate.
  assert (H3 : forall t,
             t ∈ Js.split Js.comma (comma_separated [tag_a; tag_b])
             <-> t ∈ Js.split Js.comma (comma_separated [tag_b; tag_a; tag_a])).
  { intros t.
    change (Js.split Js.comma (comma_separated [tag_a; tag_b]))
      with [tag_a; tag_b].
    change (Js.split Js.comma (comma_separated [tag_b; tag_a; tag_a]))
      with [tag_b; tag_a; tag_a].
    rewrite !elem_of_cons, !elem_of_nil. tauto. }
  split; [auto|].
  exact (tags_filter_order_irrelevant _ _ thread_db H1 H2 H3).
Defined.

Lemma get_leads_listed (query : JsObject) (db : Db) (vs : list LeadView) :
  listed (get_leads query db).1 = Some vs <->
  exists agent tags,
    casts_as query agent tags
    /\ vs = map (populate_lead db)
              (List.filter (lead_matches agent tags (query_of query))
                           (leads db)).
Proof.
  rewrite get_leads_run. unfold casts_as.
  destruct (cast_reference (present query "salesAgentId")) as [agent|].
  - destruct (cast_tags (present query "tags")) as [tags|]; simpl.
    + split.
      * intros [= <-]. exists agent, tags. auto.
      * intros (agent' & tags' & ([= <-] & [= <-]) & ->). reflexivity.
    + split; [discriminate|].
      intros (agent' & tags' & (_ & Ht) & _). discriminate.
  - simpl. split; [discriminate|].
    intros (agent' & tags' & (Ha & _) & _). discriminate.
Qed.

Lemma present_without (query : JsObject) (k k' v : string) :
  query !! k = None ->
  k = k' /\ present query k' = None
  \/ present (<[k := v]> query) k' = present query k'.
Proof.
  intros Hk. destruct (decide (k = k')) as [<-|Hne].
  - left. split; [reflexivity|]. unfold present. rewrite Hk. reflexivity.
  - right. unfold present. rewrite lookup_insert_ne by exact Hne. reflexivity.
Qed.

Lemma sublist_filter_weaker {A} (p q : A -> bool) (l : list A) :
  (forall x, p x = true -> q x = true) ->
  sublist (List.filter p l) (List.filter q l).
Proof.
  intros Hpq. induction l as [|a l IH]; simpl; [constructor|].
  destruct (p a) eqn:Hp.
  - rewrite (Hpq a Hp). constructor. exact IH.
  - destruct (q a); [constructor|]; exact IH.
Qed.

Lemma sublist_map {A B} (f : A -> B) (l1 l2 : list A) :
  sublist l1 l2 -> sublist (map f l1) (map f l2).
Proof. induction 1; simpl; constructor; assumption. Qed.

Lemma sublist_filter_all {A} (p : A -> bool) (l : list A) :
  sublist (List.filter p l) l.
Proof.
  induction l as [|a l IH]; simpl; [constructor|].
  destruct (p a); constructor; exact IH.
Qed.

(** X8: filters only narrow.  When a request is answered with a list of
    leads, the request without one of its keys is answered with a list too,
    and the first list is the second with some leads left out; every answer
    is the stored leads, in stored order, with some left out. *)
Theorem added_filter_narrows (query : JsObject) (k v : string) (db : Db)
  (narrow : list LeadView) :
  query !! k = None ->
  listed (get_leads (<[k := v]> query) db).1 = Some narrow ->
  exists wide,
    listed (get_leads query db).1 = Some wide
    /\ sublist narrow wide
    /\ sublist wide (map (populate_lead db) (leads db)).
Proof.
  intros Hk Hnarrow.
  apply get_leads_listed in Hnarrow as (agent' & tags' & [Ha' Ht'] & ->).
  assert (Hagent : exists agent,
             cast_reference (present query "salesAgentId") = Some agent).
  { destruct (present_without query k "salesAgentId" v Hk) as [[_ ->]|<-];
      [exists None; reflexivity | eauto]. }
  assert (Htags : exists tags, cast_tags (present query "tags") = Some tags).
  { destruct (present_without query k "tags" v Hk) as [[_ ->]|<-];
      [exists None; reflexivity | eauto]. }
  destruct Hagent as (agent & Ha). destruct Htags as (tags & Ht).
  assert (Hcast : casts_as query agent tags) by (split; assumption).
  assert (Hcast' : casts_as (<[k := v]> query) agent' tags')
    by (split; assumption).
  eexists. split; [apply get_leads_listed; eauto|]. split.
  - apply sublist_map, sublist_filter_weaker. intros l Hl.
    apply (lead_matches_selected (<[k := v]> query) agent' tags' l Hcast') in Hl.
    apply (lead_matches_selected query agent tags l Hcast).
    intros k0 v0 Hk0 Hv0. apply Hl; [|exact Hv0].
    rewrite lookup_insert_ne by congruence. exact Hk0.
  - apply sublist_map, sublist_filter_all.
Qed.

Lemma added_filter_narrows_witness :
  ((∅ : JsObject) !! "status" = None
   /\ listed (get_leads (<["status" := "Closed"]> ∅) assigned_db).1 = Some [])
  /\ exists wide,
       listed (get_leads ∅ assigned_db).1 = Some wide
       /\ sublist [] wide
       /\ sublist wide (map (populate_lead assigned_db) (leads assigned_db)).
Proof.
  assert (Hk : (∅ : JsObject) !! "status" = None) by reflexivity.
  assert (Hn : listed (get_leads (<["status" := "Closed"]> ∅) assigned_db).1
               = Some []) by reflexivity.
  split; [auto|].
  exact (added_filter_narrows ∅ "status" "Closed" assigned_db [] Hk Hn).
Defined.

(** ** GET /report/last-week *)

Lemma setDate_a_week_back (LocalTZA : Z -> bool -> Z) (month_start : Z -> Z)
  (now : Z) :
  setDate LocalTZA month_start now (getDate LocalTZA month_start now - 7)
  = week_cutoff LocalTZA now.
Proof.
  unfold setDate, getDate, week_cutoff, UTC, MakeDate, LocalTime, Day,
    TimeWithinDay, msPerDay.
  set (t := now + LocalTZA now true).
  assert (Ht : (t / 86400000 - 7) * 86400000 + t mod 86400000 = t - 604800000).
  { pose proof (Z.div_mod t 86400000 ltac:(lia)). lia. }
  replace (month_start t + (t / 86400000 - month_start t + 1 - 7) - 1)
    with (t / 86400000 - 7) by lia.
  rewrite Ht. subst t. lia.
Qed.

(** X9: GET /report/last-week answers 200 with the number of leads created
    at or after an instant that does not depend on the calendar (the day of
    the month may be less than 7): seven times 24 hours before now, moved
    by the change of the host's UTC offset over that week.  Leads created
    exactly at that instant count, and so do leads dated after now.  On a
    host whose offset never changes the window is exactly seven days. *)
Theorem last_week_window (LocalTZA : Z -> bool -> Z) (month_start : Z -> Z)
  (now : Z) (db : Db) :
  get_report_last_week LocalTZA month_start now db
  = (Sent {| status := 200;
             body := CountBody "leadsCreatedLastWeek"
                       (length (filter
                                  (fun l => week_cutoff LocalTZA now
                                            <= lead_createdAt l)
                                  (leads db))) |},
     db)
  /\ ((forall t b, LocalTZA t b = LocalTZA 0 true) ->
      week_cutoff LocalTZA now = now - 7 * 24 * 60 * 60 * 1000).
Proof.
  split.
  - unfold get_report_last_week, Lead_countDocuments_createdAt_gte.
    step_handler. rewrite setDate_a_week_back.
    rewrite (List_filter_decide
               (fun l => week_cutoff LocalTZA now <= lead_createdAt l));
      [reflexivity|].
    intros l. apply Z.leb_le.
  - intros Hconst. unfold week_cutoff.
    rewrite (Hconst now true), (Hconst _ false). lia.
Qed.

(** ** POST /agents, then GET /agents *)





(** ** deleteAgent *)

(** X11: [deleteAgent], the helper no route calls, removes an agent without
    looking at the leads.  With identifiers unique among the agents, the
    agent of the given identifier is returned and is stored no more, leads
    and comments are as before, and every lead that referred to it is from
    then on expanded with a null agent. *)
Theorem deleteAgent_leaves_dangling_leads (id : string) (a : AgentDoc) (db : Db) :
  NoDup (map agent_id (agents db)) ->
  a ∈ agents db ->
  castObjectId id = Some (agent_id a) ->
  exists db',
    deleteAgent id db = (Return (Some a), db')
    /\ leads db' = leads db
    /\ comments db' = comments db
    /\ (forall b, b ∈ agents db' -> b ∈ agents db /\ agent_id b <> agent_id a)
    /\ (forall l, l ∈ leads db ->
                  lead_salesAgentId l = Some (agent_id a) ->
                  populate_lead db l = {| lv_doc := l; lv_salesAgentId := Some a |}
                  /\ populate_lead db' l
                     = {| lv_doc := l; lv_salesAgentId := None |}).
Proof.
  intros Hnd Ha Hid.
  unfold deleteAgent, SalesAgent_findByIdAndDelete. step_handler. rewrite Hid.
  pose proof (remove_first_spec (fun b => N.eqb (agent_id b) (agent_id a))
                (agents db)) as Hspec.
  pose proof (remove_first_gone agent_id (agent_id a) (agents db) Hnd) as Hgone.
  pose proof (find_by_id_unique agent_id (agents db) a Hnd Ha) as Hfind.
  destruct (remove_first _ (agents db)) as [[b|] rest].
  - destruct Hspec as (l1 & l2 & Hags & -> & Hb & Hl1). simpl in Hgone.
    assert (b = a) as ->.
    { apply N.eqb_eq in Hb.
      assert (Hb_in : b ∈ agents db) by (rewrite Hags; set_solver).
      pose proof (find_by_id_unique agent_id (agents db) b Hnd Hb_in) as Hfb.
      rewrite Hb in Hfb. congruence. }
    eexists. split; [reflexivity|]. simpl.
    split; [reflexivity|]. split; [reflexivity|]. split.
    + intros c Hc. split; [|apply Hgone; [exact Hc | discriminate]].
      rewrite Hags. apply elem_of_app in Hc as [Hc|Hc]; apply elem_of_app;
        [left | right; apply elem_of_cons; right]; exact Hc.
    + intros l Hl Href. unfold populate_lead, find_agent. rewrite Href. simpl.
      rewrite Hfind. split; [reflexivity|]. f_equal.
      apply find_none_of. intros c Hc. apply N.eqb_neq.
      apply Hgone; [exact Hc | discriminate].
  - exfalso. destruct Hspec as [_ Hall]. rewrite forallb_forall in Hall.
    apply list_elem_of_In, Hall in Ha. rewrite N.eqb_refl in Ha. discriminate Ha.
Qed.

Lemma deleteAgent_leaves_dangling_leads_witness :
  (NoDup (map agent_id (agents assigned_db))
   /\ ann ∈ agents assigned_db
   /\ castObjectId ann_id = Some (agent_id ann))
  /\ exists db',
       deleteAgent ann_id assigned_db = (Return (Some ann), db')
       /\ leads db' = [assigned_lead]
       /\ populate_lead db' assigned_lead
          = {| lv_doc := assigned_lead; lv_salesAgentId := None |}.
Proof.
  assert (Hnd : NoDup (map agent_id (agents assigned_db)))
    by (repeat constructor; set_solver).
  assert (Ha : ann ∈ agents assigned_db) by (apply elem_of_cons; auto).
  assert (Hid : castObjectId ann_id = Some (agent_id ann)) by reflexivity.
  split; [auto|].
  destruct (deleteAgent_leaves_dangling_leads ann_id ann assigned_db Hnd Ha Hid)
    as (db' & Hdel & Hleads & _ & _ & Hdangling).
  exists db'. split; [exact Hdel|]. split; [exact Hleads|].
  apply Hdangling; [apply elem_of_cons; auto | reflexivity].
Defined.
